(** * Kale examples: the pipeline-step template and the tutorial notebook

    The repository holds one Jinja2 template (the pipeline-step function
    template of Kubeflow Kale) and tutorial notebooks.  This development
    embeds

    - the fragment of the Jinja2 language the template is written in
      (data, [{{ ... }}] output, [if]/[elif]/[else], [for] with
      [loop.index], and the [-] whitespace-control marks), as an
      interpreter over the template's token sequence;
    - the template itself, token by token as the source has it, over
      a record of its ten variables and once more over variables bound
      by name;
    - the cells of the Kale tutorial notebook with their metadata tags;
    - the code of that notebook's cells, run from top to bottom, with
      what it prints, the random values it draws and the errors it
      raises;

    and proves the properties the specification states about them. *)

From Stdlib Require Import String Ascii List Bool Arith Lia.
From Stdlib Require Import Decimal DecimalString.
From Stdlib Require Import ZArith.
Import ListNotations.
Open Scope string_scope.
Open Scope list_scope.

(** ** Strings *)

Module Str.

(** The double-quote character, which the template uses in the Python
    code it emits. *)
Definition dq : string := String "034"%char EmptyString.

(** The line feed. *)
Definition nl : string := String "010"%char EmptyString.

(** Python's [str.isspace] on the ASCII range: tab, line feed, vertical
    tab, form feed, carriage return, the four separators 28..31, space. *)
Definition is_space (a : ascii) : bool :=
  let n := nat_of_ascii a in
  if Nat.leb 9 n then
    if Nat.leb n 13 then true
    else if Nat.leb 28 n then Nat.leb n 32 else false
  else false.

(** [str.lstrip()] *)
Fixpoint lstrip (s : string) : string :=
  match s with
  | EmptyString => EmptyString
  | String a r => if is_space a then lstrip r else s
  end.

(** [str.rstrip()] *)
Fixpoint rstrip (s : string) : string :=
  match s with
  | EmptyString => EmptyString
  | String a r =>
      match rstrip r with
      | EmptyString => if is_space a then EmptyString else String a EmptyString
      | r' => String a r'
      end
  end.

Definition is_empty (s : string) : bool :=
  match s with EmptyString => true | _ => false end.

(** [sep.join(xs)] *)
Fixpoint join (sep : string) (xs : list string) : string :=
  match xs with
  | [] => EmptyString
  | [x] => x
  | x :: r => x ++ sep ++ join sep r
  end.

(** [s.endswith(suffix)] for a one-character suffix, and the string
    without its last character. *)
Fixpoint ends_with_nl (s : string) : bool :=
  match s with
  | EmptyString => false
  | String a EmptyString => Ascii.eqb a "010"%char
  | String _ r => ends_with_nl r
  end.

Fixpoint drop_last (s : string) : string :=
  match s with
  | EmptyString => EmptyString
  | String _ EmptyString => EmptyString
  | String a r => String a (drop_last r)
  end.

(** [p in s]: [p] occurs in [s] as a contiguous substring. *)
Fixpoint occurs (p s : string) : bool :=
  String.prefix p s ||
  match s with
  | EmptyString => false
  | String _ r => occurs p r
  end.

(** [str(n)] for a non-negative integer. *)
Definition of_nat (n : nat) : string :=
  NilEmpty.string_of_uint (Nat.to_uint n).

End Str.

(** ** The Jinja2 fragment

    The template is rendered by an environment with Jinja2's default
    options: no [trim_blocks], no [lstrip_blocks], the newline that
    ends the source dropped, and an undefined value printed as the
    empty string. *)

Module Jinja.

Import Str.

(** The rendering context: the ten variables the template reads. *)
Record Context : Type := {
  step_name : string;
  parameters_names : list string;
  parameters_types : list string;
  autosnapshot : bool;
  in_variables : list string;
  out_variables : list string;
  function_body : list string;
  pipeline_name : string;
  nb_path : string;
  marshal_path : string
}.

(** A scope is the context together with the variables a [for] loop
    binds: the loop variable and [loop.index].  The template never nests
    one loop in another, so one slot for each is enough. *)
Record Scope : Type := {
  ctx : Context;
  item : string;
  loop_index : nat
}.

Definition top (c : Context) : Scope :=
  {| ctx := c; item := EmptyString; loop_index := 0 |}.

Definition bind (sc : Scope) (i : nat) (x : string) : Scope :=
  {| ctx := ctx sc; item := x; loop_index := i |}.

(** Tags.  Expressions are kept shallow: a printed expression is a
    function from the scope to the text it prints, a condition a function
    to [bool], the sequence of a loop a function of the context. *)
Inductive tag : Type :=
| Print (e : Scope -> string)
| If (c : Scope -> bool)
| Elif (c : Scope -> bool)
| Else
| Endif
| For (xs : Context -> list string)
| Endfor.

(** A token of the template source: template data, or a tag with its
    two whitespace-control marks ([true] for a [-] next to the opening,
    respectively closing, delimiter). *)
Inductive token : Type :=
| Data (s : string)
| Tag (lmark : bool) (t : tag) (rmark : bool).

(** *** Lexing: trailing newline and whitespace control *)

(** With [keep_trailing_newline] unset (the default), one newline at the
    very end of the source is dropped. *)
Fixpoint drop_trailing_newline (ts : list token) : list token :=
  match ts with
  | [] => []
  | [Data s] => [Data (if ends_with_nl s then drop_last s else s)]
  | t :: r => t :: drop_trailing_newline r
  end.

Definition next_strips (ts : list token) : bool :=
  match ts with
  | Tag true _ _ :: _ => true
  | _ => false
  end.

(** A [-] at the start of a tag strips the whitespace that ends the data
    before it; a [-] at the end strips the whitespace that starts the
    data after it.  Data left empty yields no token. *)
Fixpoint whitespace_control (after_mark : bool) (ts : list token) : list token :=
  match ts with
  | [] => []
  | Data s :: r =>
      let s1 := if after_mark then lstrip s else s in
      let s2 := if next_strips r then rstrip s1 else s1 in
      if is_empty s2 then whitespace_control false r
      else Data s2 :: whitespace_control false r
  | Tag l t rm :: r => Tag l t rm :: whitespace_control rm r
  end.

Definition lex (ts : list token) : list token :=
  whitespace_control false (drop_trailing_newline ts).

(** *** Parsing *)

#[warnings="-register-all"]
Inductive node : Type :=
| Text (s : string)
| Output (e : Scope -> string)
| Cond (branches : list ((Scope -> bool) * list node))
| Loop (xs : Context -> list string) (body : list node).

Definition always : Scope -> bool := fun _ => true.

(** [parse_body] reads nodes up to the first tag that closes or
    continues an enclosing block and returns them with the remaining
    tokens; [parse_branches c] reads the branches of an [if] whose
    condition [c] has just been read, up to and including its [endif]. *)
Fixpoint parse_body (fuel : nat) (ts : list token)
  : option (list node * list token) :=
  match fuel with
  | 0 => None
  | S fuel' =>
      match ts with
      | [] => Some ([], [])
      | Data s :: r =>
          match parse_body fuel' r with
          | Some (ns, r') => Some (Text s :: ns, r')
          | None => None
          end
      | Tag _ (Print e) _ :: r =>
          match parse_body fuel' r with
          | Some (ns, r') => Some (Output e :: ns, r')
          | None => None
          end
      | Tag _ (For xs) _ :: r =>
          match parse_body fuel' r with
          | Some (body, Tag _ Endfor _ :: r1) =>
              match parse_body fuel' r1 with
              | Some (ns, r') => Some (Loop xs body :: ns, r')
              | None => None
              end
          | _ => None
          end
      | Tag _ (If c) _ :: r =>
          match parse_branches fuel' c r with
          | Some (brs, r1) =>
              match parse_body fuel' r1 with
              | Some (ns, r') => Some (Cond brs :: ns, r')
              | None => None
              end
          | None => None
          end
      | Tag _ _ _ :: _ => Some ([], ts)
      end
  end
with parse_branches (fuel : nat) (c : Scope -> bool) (ts : list token)
  : option (list ((Scope -> bool) * list node) * list token) :=
  match fuel with
  | 0 => None
  | S fuel' =>
      match parse_body fuel' ts with
      | Some (body, Tag _ (Elif c') _ :: r) =>
          match parse_branches fuel' c' r with
          | Some (brs, r') => Some ((c, body) :: brs, r')
          | None => None
          end
      | Some (body, Tag _ Else _ :: r) =>
          match parse_body fuel' r with
          | Some (body', Tag _ Endif _ :: r') =>
              Some ([(c, body); (always, body')], r')
          | _ => None
          end
      | Some (body, Tag _ Endif _ :: r) => Some ([(c, body)], r)
      | _ => None
      end
  end.

Definition parse (ts : list token) : option (list node) :=
  match parse_body (S (List.length ts)) ts with
  | Some (ns, []) => Some ns
  | _ => None
  end.

(** *** Rendering *)

(** What rendering emits, piece by piece: [Lit] is text of the template
    itself, [Val] the text of a printed expression. *)
Inductive chunk : Type :=
| Lit (s : string)
| Val (s : string).

Definition chunk_text (k : chunk) : string :=
  match k with Lit s => s | Val s => s end.

Fixpoint flatten (ks : list chunk) : string :=
  match ks with
  | [] => EmptyString
  | k :: r => chunk_text k ++ flatten r
  end.

(** A loop runs its body once per element, [loop.index] counting from
    the given start. *)
Fixpoint iterate (f : nat -> string -> list chunk) (i : nat) (xs : list string)
  : list chunk :=
  match xs with
  | [] => []
  | x :: r => f i x ++ iterate f (S i) r
  end.

Fixpoint eval (n : node) (sc : Scope) {struct n} : list chunk :=
  match n with
  | Text s => [Lit s]
  | Output e => [Val (e sc)]
  | Cond brs =>
      (fix branches (bs : list ((Scope -> bool) * list node)) : list chunk :=
         match bs with
         | [] => []
         | (c, body) :: r =>
             if c sc
             then (fix seq (ns : list node) : list chunk :=
                     match ns with
                     | [] => []
                     | m :: ms => eval m sc ++ seq ms
                     end) body
             else branches r
         end) brs
  | Loop xs body =>
      iterate (fun i x =>
                 (fix seq (ns : list node) : list chunk :=
                    match ns with
                    | [] => []
                    | m :: ms => eval m (bind sc i x) ++ seq ms
                    end) body)
              1 (xs (ctx sc))
  end.

Fixpoint eval_seq (ns : list node) (sc : Scope) : list chunk :=
  match ns with
  | [] => []
  | m :: ms => eval m sc ++ eval_seq ms sc
  end.

(** [Template(source).render(context)]: the emitted pieces, and their
    concatenation.  A source that does not parse renders nothing here
    (Jinja2 raises [TemplateSyntaxError]). *)
Definition emit_template (source : list token) (c : Context) : list chunk :=
  match parse (lex source) with
  | Some ns => eval_seq ns (top c)
  | None => []
  end.

Definition render_template (source : list token) (c : Context) : string :=
  flatten (emit_template source c).

(** A model of Jinja2's [indent] filter with [blank] unset, a character
    of a string being a code point below 256.  The filter appends a line
    feed to the text, splits it with [str.splitlines], indents every
    line but the first unless it is empty, and the first one when [first]
    is set, and joins the lines with line feeds.  The theorems do not
    rely on it; it serves where a rendering is computed. *)

(** The line boundaries of [str.splitlines] other than the pair of a
    carriage return and a line feed: line feed, vertical tab, form feed,
    carriage return, the separators 28..30, and next line (133). *)
Definition is_line_break (a : ascii) : bool :=
  let n := nat_of_ascii a in
  (Nat.leb 10 n && Nat.leb n 13) || (Nat.leb 28 n && Nat.leb n 30)
  || Nat.eqb n 133.

(** [s.splitlines()]: the lines without their boundaries; a boundary at
    the very end opens no further line. *)
Fixpoint split_lines (s : string) : list string :=
  match s with
  | EmptyString => []
  | String a r =>
      if Ascii.eqb a "013"%char then
        match r with
        | String b r' =>
            if Ascii.eqb b "010"%char then EmptyString :: split_lines r'
            else EmptyString :: split_lines r
        | EmptyString => [EmptyString]
        end
      else if is_line_break a then EmptyString :: split_lines r
      else match split_lines r with
           | l :: ls => String a l :: ls
           | [] => [String a EmptyString]
           end
  end.

Fixpoint spaces (n : nat) : string :=
  match n with
  | 0 => EmptyString
  | S m => String " "%char (spaces m)
  end.

Definition indent_lines (width : nat) (first : bool) (s : string) : string :=
  match split_lines (s ++ nl) with
  | [] => EmptyString
  | l :: ls =>
      (if first then spaces width else EmptyString)
      ++ join nl (l :: map (fun x => if is_empty x then x else (spaces width ++ x)%string) ls)
  end.

End Jinja.

(** ** The pipeline-step template *)

Module Template.

Import Str Jinja.

Section Source.

(** The [indent] filter is Jinja2's own, not the repository's: the text
    [block|indent(width, first)] prints is taken as a parameter. *)
Variable indent : nat -> bool -> string -> string.

(** [xs|length] *)
Definition len (xs : list string) : nat := List.length xs.

(** [parameters_types[loop.index-1]]: the element at that index, or
    Jinja2's undefined value when the list is shorter. *)
Definition type_at (sc : Scope) : option string :=
  nth_error (parameters_types (ctx sc)) (loop_index sc - 1).

(** The loop variables of the template's four loops; a loop binds its
    variable to the current element. *)
Definition arg : Scope -> string := item.
Definition in_var : Scope -> string := item.
Definition block : Scope -> string := item.
Definition out_var : Scope -> string := item.

(** An undefined value prints as the empty string and equals no string. *)
Definition show (v : option string) : string :=
  match v with Some s => s | None => EmptyString end.

Definition equals (v : option string) (s : string) : bool :=
  match v with Some t => String.eqb t s | None => false end.

(** The template source, in the order of the file.  Each [Data] is the
    text between two tags, character for character, line feeds included;
    [Tag l t r] is a tag with its [-] marks. *)
Definition step_template : list token := [
  (* line 1 *)
  Data "def ";
  Tag false (Print (fun sc => step_name (ctx sc))) false;
  Data "(";
  Tag true (For parameters_names) true;
  Data "
    ";
  Tag false (Print arg) false;
  Data ": ";
  Tag false (Print (fun sc => show (type_at sc))) false;
  Data "
    ";
  (* line 3 *)
  Tag true (If (fun sc => loop_index sc <? len (parameters_names (ctx sc)))%nat) true;
  Data ",
    ";
  Tag true Endif true;
  Data "
    ";
  Tag true Endfor true;
  Data "):
";
  (* line 6 *)
  Tag true (If (fun sc => negb (autosnapshot (ctx sc))
                          && (len (in_variables (ctx sc)) =? 0)%nat
                          && (len (out_variables (ctx sc)) =? 0)%nat
                          && (len (function_body (ctx sc)) =? 0)%nat)) false;
  Data "
    pass
";
  (* line 8 *)
  Tag true (Elif (fun sc => 0 <? len (parameters_names (ctx sc)))%nat) false;
  Data "
    _kale_pipeline_parameters_block = '''
";
  Tag true (For parameters_names) false;
  Data "
    ";
  (* line 11 *)
  Tag false (If (fun sc => equals (type_at sc) "str")) false;
  Tag false (Print arg) false;
  Data (" = " ++ dq ++ "{}" ++ dq);
  Tag false Else false;
  Tag false (Print arg) false;
  Data " = {}";
  Tag false Endif true;
  Data "
";
  Tag true Endfor false;
  Data "
    '''.format(";
  Tag false (Print (fun sc => join ", " (parameters_names (ctx sc)))) false;
  Data ")
";
  (* line 14 *)
  Tag false Endif false;
  Data "
";
  Tag true (If (fun sc => autosnapshot (ctx sc)
                          || (0 <? len (in_variables (ctx sc)))%nat
                          || (0 <? len (out_variables (ctx sc)))%nat
                          || (0 <? len (function_body (ctx sc)))%nat)) false;
  Data "
    from kale.common import mlmdutils as _kale_mlmdutils
    _kale_mlmdutils.init_metadata()
";
  (* line 18 *)
  Tag false Endif false;
  Data "
";
  Tag false (If (fun sc => autosnapshot (ctx sc)
                           && negb (String.eqb (step_name (ctx sc))
                                               "final_auto_snapshot"))) false;
  Data ("
    from kale.common import podutils as _kale_podutils
    _kale_mlmdutils.call(" ++ dq ++ "link_input_rok_artifacts" ++ dq ++ ")
    _kale_podutils.snapshot_pipeline_step(
        " ++ dq);
  Tag false (Print (fun sc => pipeline_name (ctx sc))) false;
  Data (dq ++ ",
        " ++ dq);
  Tag false (Print (fun sc => step_name (ctx sc))) false;
  Data (dq ++ ",
        " ++ dq);
  Tag false (Print (fun sc => nb_path (ctx sc))) false;
  Data (dq ++ ",
        before=True)
");
  (* line 27 *)
  Tag false Endif false;
  Data "

";
  Tag true (If (fun sc => 0 <? len (in_variables (ctx sc)))%nat) false;
  Data ("
    _kale_data_loading_block = '''
    # -----------------------DATA LOADING START--------------------------------
    from kale.marshal import utils as _kale_marshal_utils
    _kale_marshal_utils.set_kale_data_directory(" ++ dq);
  Tag false (Print (fun sc => marshal_path (ctx sc))) false;
  Data (dq ++ ")
");
  (* line 34 *)
  Tag true (For in_variables) false;
  Data "
    ";
  Tag false (Print in_var) false;
  Data (" = _kale_marshal_utils.load(" ++ dq);
  Tag false (Print in_var) false;
  Data (dq ++ ")
");
  Tag true Endfor false;
  Data "
    # -----------------------DATA LOADING END----------------------------------
    '''
";
  (* line 39 *)
  Tag false Endif false;
  Data "

";
  Tag true (For function_body) false;
  Data "
    _kale_block";
  Tag false (Print (fun sc => of_nat (loop_index sc))) false;
  Data " = '''
";
  Tag false (Print (fun sc => indent 4 true (block sc))) false;
  Data "
    '''
";
  (* line 45 *)
  Tag false Endfor false;
  Data "
";
  Tag true (If (fun sc => 0 <? len (out_variables (ctx sc)))%nat) false;
  Data ("
    _kale_data_saving_block = '''
    # -----------------------DATA SAVING START---------------------------------
    from kale.marshal import utils as _kale_marshal_utils
    _kale_marshal_utils.set_kale_data_directory(" ++ dq);
  Tag false (Print (fun sc => marshal_path (ctx sc))) false;
  Data (dq ++ ")
");
  (* line 51 *)
  Tag true (For out_variables) false;
  Data "
    _kale_marshal_utils.save(";
  Tag false (Print out_var) false;
  Data (", " ++ dq);
  Tag false (Print out_var) false;
  Data (dq ++ ")
");
  Tag true Endfor false;
  Data "
    # -----------------------DATA SAVING END-----------------------------------
    '''
";
  (* line 56 *)
  Tag true Endif false;
  Data "

";
  Tag false (If (fun sc => (0 <? len (in_variables (ctx sc)))%nat
                           || (0 <? len (out_variables (ctx sc)))%nat
                           || (0 <? len (function_body (ctx sc)))%nat)) false;
  Data "
    # run the code blocks inside a jupyter kernel
    from kale.common.jputils import run_code as _kale_run_code
    from kale.common.kfputils import \
        update_uimetadata as _kale_update_uimetadata
    _kale_blocks = (";
  (* line 63 *)
  Tag false (If (fun sc => 0 <? len (parameters_names (ctx sc)))%nat) false;
  Data "_kale_pipeline_parameters_block,";
  Tag false Endif true;
  Data "
                    ";
  Tag false (If (fun sc => 0 <? len (in_variables (ctx sc)))%nat) false;
  Data "_kale_data_loading_block,";
  Tag false Endif true;
  Data "
";
  (* line 65 *)
  Tag true (For function_body) false;
  Data "
                    _kale_block";
  Tag false (Print (fun sc => of_nat (loop_index sc))) false;
  Data ",
";
  Tag true Endfor false;
  Data "
                    ";
  (* line 68 *)
  Tag false (If (fun sc => 0 <? len (out_variables (ctx sc)))%nat) false;
  Data "_kale_data_saving_block";
  Tag false Endif false;
  Data (")
    _kale_html_artifact = _kale_run_code(_kale_blocks)
    with open(" ++ dq ++ "/");
  Tag false (Print (fun sc => step_name (ctx sc))) false;
  Data (".html" ++ dq ++ ", " ++ dq ++ "w" ++ dq ++ ") as f:
        f.write(_kale_html_artifact)
    _kale_update_uimetadata('");
  Tag false (Print (fun sc => step_name (ctx sc))) false;
  Data "')
";
  (* line 73 *)
  Tag false Endif true;
  Data "

";
  Tag true (If (fun sc => autosnapshot (ctx sc))) false;
  Data "
";
  Tag true (If (fun sc => String.eqb (step_name (ctx sc)) "final_auto_snapshot")) false;
  Data ("
    from kale.common import podutils as _kale_podutils
    _kale_mlmdutils.call(" ++ dq ++ "link_input_rok_artifacts" ++ dq ++ ")
");
  (* line 79 *)
  Tag true Endif false;
  Data ("
    _rok_snapshot_task = _kale_podutils.snapshot_pipeline_step(
        " ++ dq);
  Tag false (Print (fun sc => pipeline_name (ctx sc))) false;
  Data (dq ++ ",
        " ++ dq);
  Tag false (Print (fun sc => step_name (ctx sc))) false;
  Data (dq ++ ",
        " ++ dq);
  Tag false (Print (fun sc => nb_path (ctx sc))) false;
  Data (dq ++ ",
        before=False)
    _kale_mlmdutils.call(" ++ dq ++ "submit_output_rok_artifact" ++ dq ++ ", _rok_snapshot_task)
");
  (* line 86 *)
  Tag false Endif false;
  Data "
";
  Tag true (If (fun sc => autosnapshot (ctx sc)
                          || (0 <? len (in_variables (ctx sc)))%nat
                          || (0 <? len (out_variables (ctx sc)))%nat
                          || (0 <? len (function_body (ctx sc)))%nat)) false;
  Data ("
    _kale_mlmdutils.call(" ++ dq ++ "mark_execution_complete" ++ dq ++ ")
");
  (* line 89 *)
  Tag true Endif false;
  Data "
"
].

(** Rendering the template: the emitted pieces, and the output text. *)
Definition emit (c : Context) : list chunk := emit_template step_template c.

Definition render (c : Context) : string := render_template step_template c.

End Source.

End Template.

(** ** The template over named variables

    [Template(source).render] receives its variables as keyword
    arguments, by name.  Here each tag of the template reads the variables it names
    from what the caller bound, as the source does, and takes from the
    scope only what a loop binds.  [TemplateProps.named_rendering]
    proves that this is the rendering of [Template.step_template] on
    the context the ten variables make. *)

Module Named.

Import Str Jinja Template.

(** The values the caller binds: a flag, a text, a list of texts. *)
Inductive value : Type :=
| VBool (b : bool)
| VStr (s : string)
| VList (xs : list string).

(** The value bound to each name, if any. *)
Definition variables : Type := string -> option value.

(** The ten names the specification lists. *)
Definition names : list string :=
  ["step_name"; "parameters_names"; "parameters_types"; "autosnapshot";
   "in_variables"; "out_variables"; "function_body"; "pipeline_name";
   "nb_path"; "marshal_path"].

(** A variable read where the template tests it, prints it or iterates
    over it, when it is bound to a value of that kind.  For a name that
    is not bound, or bound to a value of another kind, the reading is a
    default that models nothing: [render_named] renders only variables
    that [bound] accepts. *)
Definition flag (v : option value) : bool :=
  match v with Some (VBool b) => b | _ => false end.

Definition text (v : option value) : string :=
  match v with Some (VStr s) => s | _ => EmptyString end.

Definition items (v : option value) : list string :=
  match v with Some (VList xs) => xs | _ => [] end.

Section Source.

Variable indent : nat -> bool -> string -> string.

Variable vars : variables.

(** [parameters_types[loop.index-1]] *)
Definition entry_type (sc : Scope) : option string :=
  nth_error (items (vars "parameters_types")) (loop_index sc - 1).

(** The template source, tag by tag as in [Template.step_template]. *)
Definition named_template : list token := [
  (* line 1 *)
  Data "def ";
  Tag false (Print (fun _ => text (vars "step_name"))) false;
  Data "(";
  Tag true (For (fun _ => items (vars "parameters_names"))) true;
  Data "
    ";
  Tag false (Print arg) false;
  Data ": ";
  Tag false (Print (fun sc => show (entry_type sc))) false;
  Data "
    ";
  (* line 3 *)
  Tag true (If (fun sc => loop_index sc <? len (items (vars "parameters_names")))%nat) true;
  Data ",
    ";
  Tag true Endif true;
  Data "
    ";
  Tag true Endfor true;
  Data "):
";
  (* line 6 *)
  Tag true (If (fun _ => negb (flag (vars "autosnapshot"))
                          && (len (items (vars "in_variables")) =? 0)%nat
                          && (len (items (vars "out_variables")) =? 0)%nat
                          && (len (items (vars "function_body")) =? 0)%nat)) false;
  Data "
    pass
";
  (* line 8 *)
  Tag true (Elif (fun _ => 0 <? len (items (vars "parameters_names")))%nat) false;
  Data "
    _kale_pipeline_parameters_block = '''
";
  Tag true (For (fun _ => items (vars "parameters_names"))) false;
  Data "
    ";
  (* line 11 *)
  Tag false (If (fun sc => equals (entry_type sc) "str")) false;
  Tag false (Print arg) false;
  Data (" = " ++ dq ++ "{}" ++ dq);
  Tag false Else false;
  Tag false (Print arg) false;
  Data " = {}";
  Tag false Endif true;
  Data "
";
  Tag true Endfor false;
  Data "
    '''.format(";
  Tag false (Print (fun _ => join ", " (items (vars "parameters_names")))) false;
  Data ")
";
  (* line 14 *)
  Tag false Endif false;
  Data "
";
  Tag true (If (fun _ => flag (vars "autosnapshot")
                          || (0 <? len (items (vars "in_variables")))%nat
                          || (0 <? len (items (vars "out_variables")))%nat
                          || (0 <? len (items (vars "function_body")))%nat)) false;
  Data "
    from kale.common import mlmdutils as _kale_mlmdutils
    _kale_mlmdutils.init_metadata()
";
  (* line 18 *)
  Tag false Endif false;
  Data "
";
  Tag false (If (fun _ => flag (vars "autosnapshot")
                           && negb (String.eqb (text (vars "step_name"))
                                               "final_auto_snapshot"))) false;
  Data ("
    from kale.common import podutils as _kale_podutils
    _kale_mlmdutils.call(" ++ dq ++ "link_input_rok_artifacts" ++ dq ++ ")
    _kale_podutils.snapshot_pipeline_step(
        " ++ dq);
  Tag false (Print (fun _ => text (vars "pipeline_name"))) false;
  Data (dq ++ ",
        " ++ dq);
  Tag false (Print (fun _ => text (vars "step_name"))) false;
  Data (dq ++ ",
        " ++ dq);
  Tag false (Print (fun _ => text (vars "nb_path"))) false;
  Data (dq ++ ",
        before=True)
");
  (* line 27 *)
  Tag false Endif false;
  Data "

";
  Tag true (If (fun _ => 0 <? len (items (vars "in_variables")))%nat) false;
  Data ("
    _kale_data_loading_block = '''
    # -----------------------DATA LOADING START--------------------------------
    from kale.marshal import utils as _kale_marshal_utils
    _kale_marshal_utils.set_kale_data_directory(" ++ dq);
  Tag false (Print (fun _ => text (vars "marshal_path"))) false;
  Data (dq ++ ")
");
  (* line 34 *)
  Tag true (For (fun _ => items (vars "in_variables"))) false;
  Data "
    ";
  Tag false (Print in_var) false;
  Data (" = _kale_marshal_utils.load(" ++ dq);
  Tag false (Print in_var) false;
  Data (dq ++ ")
");
  Tag true Endfor false;
  Data "
    # -----------------------DATA LOADING END----------------------------------
    '''
";
  (* line 39 *)
  Tag false Endif false;
  Data "

";
  Tag true (For (fun _ => items (vars "function_body"))) false;
  Data "
    _kale_block";
  Tag false (Print (fun sc => of_nat (loop_index sc))) false;
  Data " = '''
";
  Tag false (Print (fun sc => indent 4 true (block sc))) false;
  Data "
    '''
";
  (* line 45 *)
  Tag false Endfor false;
  Data "
";
  Tag true (If (fun _ => 0 <? len (items (vars "out_variables")))%nat) false;
  Data ("
    _kale_data_saving_block = '''
    # -----------------------DATA SAVING START---------------------------------
    from kale.marshal import utils as _kale_marshal_utils
    _kale_marshal_utils.set_kale_data_directory(" ++ dq);
  Tag false (Print (fun _ => text (vars "marshal_path"))) false;
  Data (dq ++ ")
");
  (* line 51 *)
  Tag true (For (fun _ => items (vars "out_variables"))) false;
  Data "
    _kale_marshal_utils.save(";
  Tag false (Print out_var) false;
  Data (", " ++ dq);
  Tag false (Print out_var) false;
  Data (dq ++ ")
");
  Tag true Endfor false;
  Data "
    # -----------------------DATA SAVING END-----------------------------------
    '''
";
  (* line 56 *)
  Tag true Endif false;
  Data "

";
  Tag false (If (fun _ => (0 <? len (items (vars "in_variables")))%nat
                           || (0 <? len (items (vars "out_variables")))%nat
                           || (0 <? len (items (vars "function_body")))%nat)) false;
  Data "
    # run the code blocks inside a jupyter kernel
    from kale.common.jputils import run_code as _kale_run_code
    from kale.common.kfputils import \
        update_uimetadata as _kale_update_uimetadata
    _kale_blocks = (";
  (* line 63 *)
  Tag false (If (fun _ => 0 <? len (items (vars "parameters_names")))%nat) false;
  Data "_kale_pipeline_parameters_block,";
  Tag false Endif true;
  Data "
                    ";
  Tag false (If (fun _ => 0 <? len (items (vars "in_variables")))%nat) false;
  Data "_kale_data_loading_block,";
  Tag false Endif true;
  Data "
";
  (* line 65 *)
  Tag true (For (fun _ => items (vars "function_body"))) false;
  Data "
                    _kale_block";
  Tag false (Print (fun sc => of_nat (loop_index sc))) false;
  Data ",
";
  Tag true Endfor false;
  Data "
                    ";
  (* line 68 *)
  Tag false (If (fun _ => 0 <? len (items (vars "out_variables")))%nat) false;
  Data "_kale_data_saving_block";
  Tag false Endif false;
  Data (")
    _kale_html_artifact = _kale_run_code(_kale_blocks)
    with open(" ++ dq ++ "/");
  Tag false (Print (fun _ => text (vars "step_name"))) false;
  Data (".html" ++ dq ++ ", " ++ dq ++ "w" ++ dq ++ ") as f:
        f.write(_kale_html_artifact)
    _kale_update_uimetadata('");
  Tag false (Print (fun _ => text (vars "step_name"))) false;
  Data "')
";
  (* line 73 *)
  Tag false Endif true;
  Data "

";
  Tag true (If (fun _ => flag (vars "autosnapshot"))) false;
  Data "
";
  Tag true (If (fun _ => String.eqb (text (vars "step_name")) "final_auto_snapshot")) false;
  Data ("
    from kale.common import podutils as _kale_podutils
    _kale_mlmdutils.call(" ++ dq ++ "link_input_rok_artifacts" ++ dq ++ ")
");
  (* line 79 *)
  Tag true Endif false;
  Data ("
    _rok_snapshot_task = _kale_podutils.snapshot_pipeline_step(
        " ++ dq);
  Tag false (Print (fun _ => text (vars "pipeline_name"))) false;
  Data (dq ++ ",
        " ++ dq);
  Tag false (Print (fun _ => text (vars "step_name"))) false;
  Data (dq ++ ",
        " ++ dq);
  Tag false (Print (fun _ => text (vars "nb_path"))) false;
  Data (dq ++ ",
        before=False)
    _kale_mlmdutils.call(" ++ dq ++ "submit_output_rok_artifact" ++ dq ++ ", _rok_snapshot_task)
");
  (* line 86 *)
  Tag false Endif false;
  Data "
";
  Tag true (If (fun _ => flag (vars "autosnapshot")
                          || (0 <? len (items (vars "in_variables")))%nat
                          || (0 <? len (items (vars "out_variables")))%nat
                          || (0 <? len (items (vars "function_body")))%nat)) false;
  Data ("
    _kale_mlmdutils.call(" ++ dq ++ "mark_execution_complete" ++ dq ++ ")
");
  (* line 89 *)
  Tag true Endif false;
  Data "
"
].

End Source.

(** A variable read at its kind, when it is bound to a value of that
    kind. *)
Definition as_flag (v : option value) : option bool :=
  match v with Some (VBool b) => Some b | _ => None end.

Definition as_text (v : option value) : option string :=
  match v with Some (VStr s) => Some s | _ => None end.

Definition as_list (v : option value) : option (list string) :=
  match v with Some (VList xs) => Some xs | _ => None end.

(** The context the variables make, when each of the ten names is bound
    to a value of its kind. *)
Definition bound (vars : variables) : option Context :=
  match as_text (vars "step_name"),
        as_list (vars "parameters_names"),
        as_list (vars "parameters_types"),
        as_flag (vars "autosnapshot"),
        as_list (vars "in_variables"),
        as_list (vars "out_variables"),
        as_list (vars "function_body"),
        as_text (vars "pipeline_name"),
        as_text (vars "nb_path"),
        as_text (vars "marshal_path")
  with
  | Some sn, Some pn, Some pt, Some au, Some iv, Some ov, Some fb,
    Some pl, Some nb, Some mp =>
      Some {| step_name := sn; parameters_names := pn;
              parameters_types := pt; autosnapshot := au;
              in_variables := iv; out_variables := ov;
              function_body := fb; pipeline_name := pl;
              nb_path := nb; marshal_path := mp |}
  | _, _, _, _, _, _, _, _, _, _ => None
  end.

(** Rendering the template on named variables; [None] when one of the
    ten names is not bound to a value of its kind. *)
Definition render_named (indent : nat -> bool -> string -> string)
    (vars : variables) : option string :=
  match bound vars with
  | Some c => Some (render_template (named_template indent vars) c)
  | None => None
  end.

(** The variables of a context, among others: the ten names bound to
    the fields of [c], any other name to what [others] binds it to. *)
Definition variables_of (c : Context) (others : variables) : variables :=
  fun n =>
    if String.eqb n "step_name" then Some (VStr (step_name c))
    else if String.eqb n "parameters_names" then Some (VList (parameters_names c))
    else if String.eqb n "parameters_types" then Some (VList (parameters_types c))
    else if String.eqb n "autosnapshot" then Some (VBool (autosnapshot c))
    else if String.eqb n "in_variables" then Some (VList (in_variables c))
    else if String.eqb n "out_variables" then Some (VList (out_variables c))
    else if String.eqb n "function_body" then Some (VList (function_body c))
    else if String.eqb n "pipeline_name" then Some (VStr (pipeline_name c))
    else if String.eqb n "nb_path" then Some (VStr (nb_path c))
    else if String.eqb n "marshal_path" then Some (VStr (marshal_path c))
    else others n.

End Named.

(** ** The shape of the output

    The pieces the template can emit, named after what they hold, and
    the order it emits them in.  These are not read off the source one
    by one: [TemplateProps.emit_layout] proves that interpreting the
    template yields exactly [layout]. *)

Module Layout.

Import Str Jinja Template.

Section Pieces.

Variable indent : nat -> bool -> string -> string.

Definition idle (c : Context) : bool :=
  negb (autosnapshot c)
  && (len (in_variables c) =? 0)%nat
  && (len (out_variables c) =? 0)%nat
  && (len (function_body c) =? 0)%nat.

Definition active (c : Context) : bool :=
  autosnapshot c
  || (0 <? len (in_variables c))%nat
  || (0 <? len (out_variables c))%nat
  || (0 <? len (function_body c))%nat.

Definition has_blocks (c : Context) : bool :=
  (0 <? len (in_variables c))%nat
  || (0 <? len (out_variables c))%nat
  || (0 <? len (function_body c))%nat.

Definition is_final (c : Context) : bool :=
  String.eqb (step_name c) "final_auto_snapshot".

Definition annotated_parameters (c : Context) : list chunk :=
  iterate (fun i x =>
             [Val x; Lit ": "; Val (show (nth_error (parameters_types c) (i - 1)))]
             ++ (if (i <? len (parameters_names c))%nat then [Lit ","] else []))
          1 (parameters_names c).

Definition signature (c : Context) : list chunk :=
  [Lit "def "; Val (step_name c); Lit "("]
  ++ annotated_parameters c ++ [Lit "):"].

Definition pass_statement : list chunk :=
  [Lit "
    pass"].

Definition parameters_block (c : Context) : list chunk :=
  [Lit "
    _kale_pipeline_parameters_block = '''"]
  ++ iterate (fun i x =>
                [Lit "
    "]
                ++ (if equals (nth_error (parameters_types c) (i - 1)) "str"
                    then [Val x; Lit (" = " ++ dq ++ "{}" ++ dq)]
                    else [Val x; Lit " = {}"]))
             1 (parameters_names c)
  ++ [Lit "
    '''.format("; Val (join ", " (parameters_names c)); Lit ")
"].

Definition metadata_init : list chunk :=
  [Lit "
    from kale.common import mlmdutils as _kale_mlmdutils
    _kale_mlmdutils.init_metadata()
"].

Definition snapshot_arguments (c : Context) (before : string) : list chunk :=
  [Val (pipeline_name c);
   Lit (dq ++ ",
        " ++ dq);
   Val (step_name c);
   Lit (dq ++ ",
        " ++ dq);
   Val (nb_path c);
   Lit (dq ++ ",
        before=" ++ before)].

Definition snapshot_before (c : Context) : list chunk :=
  [Lit ("
    from kale.common import podutils as _kale_podutils
    _kale_mlmdutils.call(" ++ dq ++ "link_input_rok_artifacts" ++ dq ++ ")
    _kale_podutils.snapshot_pipeline_step(
        " ++ dq)]
  ++ snapshot_arguments c "True)
".

Definition loading_block (c : Context) : list chunk :=
  [Lit ("
    _kale_data_loading_block = '''
    # -----------------------DATA LOADING START--------------------------------
    from kale.marshal import utils as _kale_marshal_utils
    _kale_marshal_utils.set_kale_data_directory(" ++ dq);
   Val (marshal_path c);
   Lit (dq ++ ")")]
  ++ iterate (fun _ x =>
                [Lit "
    "; Val x; Lit (" = _kale_marshal_utils.load(" ++ dq); Val x; Lit (dq ++ ")")])
             1 (in_variables c)
  ++ [Lit "
    # -----------------------DATA LOADING END----------------------------------
    '''
"].

Definition body_blocks (c : Context) : list chunk :=
  iterate (fun i x =>
             [Lit "
    _kale_block"; Val (of_nat i); Lit " = '''
"; Val (indent 4 true x); Lit "
    '''
"])
          1 (function_body c).

Definition saving_block (c : Context) : list chunk :=
  [Lit ("
    _kale_data_saving_block = '''
    # -----------------------DATA SAVING START---------------------------------
    from kale.marshal import utils as _kale_marshal_utils
    _kale_marshal_utils.set_kale_data_directory(" ++ dq);
   Val (marshal_path c);
   Lit (dq ++ ")")]
  ++ iterate (fun _ x =>
                [Lit "
    _kale_marshal_utils.save("; Val x; Lit (", " ++ dq); Val x; Lit (dq ++ ")")])
             1 (out_variables c)
  ++ [Lit "
    # -----------------------DATA SAVING END-----------------------------------
    '''"].

(** What stands between the parentheses of [_kale_blocks = (...)]. *)
Definition blocks_elements (c : Context) : list chunk :=
  (if (0 <? len (parameters_names c))%nat
   then [Lit "_kale_pipeline_parameters_block,"] else [])
  ++ (if (0 <? len (in_variables c))%nat
      then [Lit "_kale_data_loading_block,"] else [])
  ++ iterate (fun i _ =>
                [Lit "
                    _kale_block"; Val (of_nat i); Lit ","])
             1 (function_body c)
  ++ [Lit "
                    "]
  ++ (if (0 <? len (out_variables c))%nat
      then [Lit "_kale_data_saving_block"] else []).

Definition run_prologue : list chunk :=
  [Lit "
    # run the code blocks inside a jupyter kernel
    from kale.common.jputils import run_code as _kale_run_code
    from kale.common.kfputils import \
        update_uimetadata as _kale_update_uimetadata
    _kale_blocks = ("].

Definition run_epilogue (c : Context) : list chunk :=
  [Lit (")
    _kale_html_artifact = _kale_run_code(_kale_blocks)
    with open(" ++ dq ++ "/");
   Val (step_name c);
   Lit (".html" ++ dq ++ ", " ++ dq ++ "w" ++ dq ++ ") as f:
        f.write(_kale_html_artifact)
    _kale_update_uimetadata('");
   Val (step_name c);
   Lit "')
"].

Definition run_blocks (c : Context) : list chunk :=
  run_prologue ++ blocks_elements c ++ run_epilogue c.

Definition link_input : list chunk :=
  [Lit ("
    from kale.common import podutils as _kale_podutils
    _kale_mlmdutils.call(" ++ dq ++ "link_input_rok_artifacts" ++ dq ++ ")")].

Definition snapshot_after (c : Context) : list chunk :=
  (if is_final c then link_input else [])
  ++ [Lit ("
    _rok_snapshot_task = _kale_podutils.snapshot_pipeline_step(
        " ++ dq)]
  ++ snapshot_arguments c ("False)
    _kale_mlmdutils.call(" ++ dq ++ "submit_output_rok_artifact" ++ dq ++ ", _rok_snapshot_task)
").

Definition metadata_complete : list chunk :=
  [Lit ("
    _kale_mlmdutils.call(" ++ dq ++ "mark_execution_complete" ++ dq ++ ")")].

(** The code blocks of a step: data loading, the cells of the step,
    data saving, and their run in a kernel. *)
Definition code_blocks (c : Context) : list chunk :=
  (if (0 <? len (in_variables c))%nat then loading_block c else [])
  ++ body_blocks c
  ++ (if (0 <? len (out_variables c))%nat then saving_block c else [])
  ++ [Lit "

"]
  ++ (if has_blocks c then run_blocks c else []).

Definition layout (c : Context) : list chunk :=
  signature c
  ++ (if idle c then pass_statement
      else if (0 <? len (parameters_names c))%nat then parameters_block c
      else [])
  ++ (if active c then metadata_init else [])
  ++ [Lit "
"]
  ++ (if autosnapshot c && negb (is_final c) then snapshot_before c else [])
  ++ code_blocks c
  ++ (if autosnapshot c then snapshot_after c else [])
  ++ (if active c then metadata_complete else []).

End Pieces.

End Layout.

(** ** The Kale tutorial notebook *)

Module Notebook.

Inductive cell_type : Type := Markdown | Code.

(** A cell of the notebook: its [cell_type] and the [tags] of its
    [metadata] (none when the metadata has no [tags] entry). *)
Record cell : Type := {
  kind : cell_type;
  tags : list string
}.

Definition markdown : cell := {| kind := Markdown; tags := [] |}.

Definition code (ts : list string) : cell := {| kind := Code; tags := ts |}.

(** The cells of the notebook, in the order of its [cells] array. *)
Definition tutorial_cells : list cell := [
  markdown;
  markdown;
  code ["imports"];
  markdown;
  code ["pipeline-parameters"];
  markdown;
  code ["functions"];
  markdown;
  code ["block:sack"];
  markdown;
  code ["block:kid1"; "prev:sack"];
  markdown;
  code ["block:kid2"; "prev:kid1"];
  markdown;
  code ["block:kid3"; "prev:kid2"];
  markdown;
  code []
].

Definition is_code (c : cell) : bool :=
  match kind c with Code => true | Markdown => false end.

(** [t] without the prefix [p], when it starts with it. *)
Fixpoint strip_prefix (p t : string) : option string :=
  match p, t with
  | EmptyString, _ => Some t
  | String a p', String b t' =>
      if Ascii.eqb a b then strip_prefix p' t' else None
  | String _ _, EmptyString => None
  end.

(** The five shapes of a tag. *)
Inductive shape : Type :=
| Imports
| PipelineParameters
| Functions
| Block (name : string)
| Prev (name : string).

Definition shape_of (t : string) : option shape :=
  if String.eqb t "imports" then Some Imports
  else if String.eqb t "pipeline-parameters" then Some PipelineParameters
  else if String.eqb t "functions" then Some Functions
  else match strip_prefix "block:" t with
       | Some n => Some (Block n)
       | None =>
           match strip_prefix "prev:" t with
           | Some n => Some (Prev n)
           | None => None
           end
       end.

(** The names a cell's [block:] tags declare, and those its [prev:]
    tags refer to. *)
Definition names_with (p : string) (c : cell) : list string :=
  flat_map (fun t => match strip_prefix p t with
                     | Some n => [n]
                     | None => []
                     end) (tags c).

Definition block_names : cell -> list string := names_with "block:".

Definition prev_names : cell -> list string := names_with "prev:".

(** The blocks the code cells declare, in notebook order, and the
    dependencies between them: [(b, p)] when a code cell declares block
    [b] and refers to [p] as a previous block. *)
Definition declared_blocks (cs : list cell) : list string :=
  flat_map (fun c => if is_code c then block_names c else []) cs.

Definition dependencies (cs : list cell) : list (string * string) :=
  flat_map (fun c =>
              if is_code c
              then flat_map (fun b => map (fun p => (b, p)) (prev_names c))
                            (block_names c)
              else []) cs.

(** Every [prev:] name of a code cell is among [seen], the block names
    the code cells before it declare. *)
Fixpoint prevs_declared (seen : list string) (cs : list cell) : bool :=
  match cs with
  | [] => true
  | c :: r =>
      if is_code c
      then forallb (fun n => existsb (String.eqb n) seen) (prev_names c)
           && prevs_declared (seen ++ block_names c) r
      else prevs_declared seen r
  end.

(** The tags of the code cells, in notebook order. *)
Definition code_tags (cs : list cell) : list string :=
  flat_map (fun c => if is_code c then tags c else []) cs.

End Notebook.

(** ** The texts the specification describes

    What the specification says the output holds, written out as text:
    the theorems compare the rendering of the template with these. *)

Module Expected.

Import Str Jinja.

(** The concatenation of a list of strings. *)
Fixpoint cat (xs : list string) : string :=
  match xs with
  | [] => EmptyString
  | x :: r => x ++ cat r
  end.

(** The elements of a list with their positions, counted from zero. *)
Definition indexed {A : Type} (xs : list A) : list (nat * A) :=
  combine (seq 0 (List.length xs)) xs.

(** [name = _kale_marshal_utils.load("name")], on a line of its own. *)
Definition load_line (v : string) : string :=
  nl ++ "    " ++ v ++ " = _kale_marshal_utils.load(" ++ dq ++ v ++ dq ++ ")".

(** [_kale_marshal_utils.save(name, "name")], on a line of its own. *)
Definition save_line (v : string) : string :=
  nl ++ "    _kale_marshal_utils.save(" ++ v ++ ", " ++ dq ++ v ++ dq ++ ")".

(** The line that sets the kale data directory. *)
Definition set_directory_line (dir : string) : string :=
  nl ++ "    _kale_marshal_utils.set_kale_data_directory(" ++ dq ++ dir ++ dq ++ ")".

Definition import_marshal_line : string :=
  nl ++ "    from kale.marshal import utils as _kale_marshal_utils".

(** The data-loading block: it sets the directory, then loads each
    variable in order. *)
Definition data_loading_text (dir : string) (vars : list string) : string :=
  nl ++ "    _kale_data_loading_block = '''"
  ++ nl ++ "    # -----------------------DATA LOADING START--------------------------------"
  ++ import_marshal_line
  ++ set_directory_line dir
  ++ cat (map load_line vars)
  ++ nl ++ "    # -----------------------DATA LOADING END----------------------------------"
  ++ nl ++ "    '''" ++ nl.

(** The data-saving block: it sets the directory, then saves each
    variable in order. *)
Definition data_saving_text (dir : string) (vars : list string) : string :=
  nl ++ "    _kale_data_saving_block = '''"
  ++ nl ++ "    # -----------------------DATA SAVING START---------------------------------"
  ++ import_marshal_line
  ++ set_directory_line dir
  ++ cat (map save_line vars)
  ++ nl ++ "    # -----------------------DATA SAVING END-----------------------------------"
  ++ nl ++ "    '''".

(** [s] holds [x] as a contiguous part. *)
Definition contains (s x : string) : Prop :=
  exists pre post, s = (pre ++ x ++ post)%string.

(** A parameter with its annotation, [name: type]. *)
Definition annotated (p : string * string) : string :=
  (fst p ++ ": " ++ snd p)%string.

(** The line that opens the step function: its name, and the parameters
    with their types, separated by commas. *)
Definition signature_line (name : string) (names types : list string) : string :=
  "def " ++ name ++ "(" ++ join "," (map annotated (combine names types)) ++ "):".

(** The same line when the list of types may be shorter than the list of
    names: a parameter whose type is missing gets an empty annotation. *)
Definition annotation_at (types : list string) (p : nat * string) : string :=
  (snd p ++ ": " ++ Template.show (nth_error types (fst p)))%string.

Definition signature_text (c : Context) : string :=
  "def " ++ step_name c ++ "("
  ++ join "," (map (annotation_at (parameters_types c)) (indexed (parameters_names c)))
  ++ "):".

(** The body of a step that has nothing to do. *)
Definition pass_body : string :=
  nl ++ "    pass" ++ nl ++ nl ++ nl.

(** The assignment of one pipeline parameter inside the parameters
    block: [name = "{}"] when its type is [str], [name = {}] otherwise,
    on a line of its own. *)
Definition is_str (types : list string) (i : nat) : bool :=
  match nth_error types i with
  | Some t => String.eqb t "str"
  | None => false
  end.

Definition assignment_at (types : list string) (p : nat * string) : string :=
  nl ++ "    " ++ snd p
  ++ (if is_str types (fst p) then " = " ++ dq ++ "{}" ++ dq else " = {}").

(** The pipeline-parameters block: one assignment per parameter, and
    the [format] call on the names joined in order. *)
Definition parameters_block_text (names types : list string) : string :=
  nl ++ "    _kale_pipeline_parameters_block = '''"
  ++ cat (map (assignment_at types) (indexed names))
  ++ nl ++ "    '''.format(" ++ join ", " names ++ ")" ++ nl.

(** The step has something to do: it snapshots, or it has variables to
    load or save, or code to run. *)
Definition busy (c : Context) : Prop :=
  autosnapshot c = true \/ in_variables c <> [] \/ out_variables c <> []
  \/ function_body c <> [].

(** A piece of template text mentions [p]; printed values do not count,
    they are the caller's text. *)
Definition mentions (p : string) (k : chunk) : bool :=
  match k with
  | Lit s => occurs p s
  | Val _ => false
  end.

(** Some piece of template text among [ks] mentions [p]. *)
Definition emits (p : string) (ks : list chunk) : bool :=
  existsb (mentions p) ks.

(** The call of the snapshot utility on the pipeline name, the step
    name and the notebook path, with the given [before] flag. *)
Definition snapshot_call (c : Context) (before : string) : string :=
  "_kale_podutils.snapshot_pipeline_step("
  ++ nl ++ "        " ++ dq ++ pipeline_name c ++ dq ++ ","
  ++ nl ++ "        " ++ dq ++ step_name c ++ dq ++ ","
  ++ nl ++ "        " ++ dq ++ nb_path c ++ dq ++ ","
  ++ nl ++ "        before=" ++ before ++ ")".

(** The snapshot taken after the code blocks, and its submission. *)
Definition snapshot_and_submit (c : Context) : string :=
  "_rok_snapshot_task = " ++ snapshot_call c "False"
  ++ nl ++ "    _kale_mlmdutils.call(" ++ dq ++ "submit_output_rok_artifact" ++ dq
  ++ ", _rok_snapshot_task)".

(** A text without its whitespace. *)
Fixpoint squeeze (s : string) : string :=
  match s with
  | EmptyString => EmptyString
  | String a r => if is_space a then squeeze r else String a (squeeze r)
  end.

(** The text of emitted pieces, the template's own layout whitespace
    left out; printed values are kept as they are. *)
Fixpoint compact (ks : list chunk) : string :=
  match ks with
  | [] => EmptyString
  | Lit s :: r => squeeze s ++ compact r
  | Val s :: r => s ++ compact r
  end.

(** The names of the code blocks that come before the data-saving
    block, in the order of the specification: the pipeline-parameters
    block, the data-loading block, one block per element of
    [function_body]. *)
Definition leading_blocks (c : Context) : list string :=
  (match parameters_names c with
   | [] => []
   | _ => ["_kale_pipeline_parameters_block"]
   end)
  ++ (match in_variables c with
      | [] => []
      | _ => ["_kale_data_loading_block"]
      end)
  ++ map (fun i => ("_kale_block" ++ of_nat i)%string)
         (seq 1 (List.length (function_body c))).

(** How Python reads what stands between two parentheses: as a tuple
    when there is nothing there or when there is a comma; one expression
    alone, with no comma, is that expression and no tuple. *)
Definition reads_as_tuple (elements : string) : bool :=
  is_empty elements || occurs "," elements.

(** The step has code blocks to run. *)
Definition has_code (c : Context) : Prop :=
  in_variables c <> [] \/ out_variables c <> [] \/ function_body c <> [].

(** A step whose only code block is the data-saving block. *)
Definition saving_only : Context := {|
  step_name := "save";
  parameters_names := [];
  parameters_types := [];
  autosnapshot := false;
  in_variables := [];
  out_variables := ["x"];
  function_body := [];
  pipeline_name := "candybag";
  nb_path := "/candies.ipynb";
  marshal_path := "/marshal"
|}.

(** A step of the tutorial pipeline, with one input, one output, one
    cell and two parameters. *)
Definition kid2_step : Context := {|
  step_name := "kid2";
  parameters_names := ["CANDIES"; "OWNER"];
  parameters_types := ["int"; "str"];
  autosnapshot := true;
  in_variables := ["kid1"];
  out_variables := ["kid2"];
  function_body := ["kid2 = get_handful(CANDIES - kid1)"];
  pipeline_name := "candybag";
  nb_path := "/candies.ipynb";
  marshal_path := "/marshal"
|}.

(** A step with parameters and nothing to do. *)
Definition idle_step : Context := {|
  step_name := "noop";
  parameters_names := ["CANDIES"];
  parameters_types := ["int"];
  autosnapshot := false;
  in_variables := [];
  out_variables := [];
  function_body := [];
  pipeline_name := "candybag";
  nb_path := "/candies.ipynb";
  marshal_path := "/marshal"
|}.

(** The text of the block that holds one cell of the step: cell [i]
    (counted from zero) is bound to [_kale_block<i+1>] as a triple-quoted
    string holding what the [indent] filter makes of the cell. *)
Definition cell_block_text (indent : nat -> bool -> string -> string)
    (p : nat * string) : string :=
  nl ++ "    _kale_block" ++ of_nat (S (fst p)) ++ " = '''"
  ++ nl ++ indent 4 true (snd p)
  ++ nl ++ "    '''" ++ nl.

(** The name of the data-saving block, when there is one. *)
Definition saving_blocks (c : Context) : list string :=
  match out_variables c with
  | [] => []
  | _ => ["_kale_data_saving_block"]
  end.

(** The line that binds a block name to a triple-quoted string. *)
Definition block_binding (name : string) : string :=
  nl ++ "    " ++ name ++ " = '''".

(** Reading template text for where its lines start.  The state says
    whether the reader stands at the start of a line.  A character at
    the start of a line must be a line feed or the first of four
    spaces; anything may follow inside a line.  [None] reports a line of
    template text that starts in one of the first four columns. *)
Fixpoint scan_text (at_start : bool) (s : string) : option bool :=
  match s with
  | EmptyString => Some at_start
  | String a r =>
      if Ascii.eqb a "010"%char then scan_text true r
      else if at_start
           then if String.prefix "    " s then scan_text false r else None
           else scan_text false r
  end.

(** The same over emitted pieces: a printed value is the caller's text
    and is not read; after it the reader stands inside a line. *)
Fixpoint scan (at_start : bool) (ks : list chunk) : option bool :=
  match ks with
  | [] => Some at_start
  | Lit s :: r =>
      match scan_text at_start s with
      | Some st => scan st r
      | None => None
      end
  | Val _ :: r => scan false r
  end.

(** [ks] reads well from either state. *)
Definition reads_well (ks : list chunk) : Prop :=
  forall st, exists st', scan st ks = Some st'.


(** *** Occurrences in the rendered text *)

(** How many times [p] occurs in [s]: the number of positions of [s]
    where [p] starts. *)
Fixpoint count (p s : string) : nat :=
  (if String.prefix p s then 1 else 0)
  + match s with
    | EmptyString => 0
    | String _ r => count p r
    end.

(** The values a context hands to the template, the cells as the
    [indent] filter returns them. *)
Definition context_values (indent : nat -> bool -> string -> string)
    (c : Context) : list string :=
  [step_name c; pipeline_name c; nb_path c; marshal_path c]
  ++ parameters_names c ++ parameters_types c
  ++ in_variables c ++ out_variables c
  ++ map (indent 4 true) (function_body c).

(** None of these values holds [p]: what the output then holds of [p]
    is the template's own. *)
Definition clean (indent : nat -> bool -> string -> string)
    (p : string) (c : Context) : bool :=
  forallb (fun v => negb (occurs p v)) (context_values indent c).

(** Two texts agree as far as both go: one starts with the other. *)
Fixpoint agree (p s : string) : bool :=
  match p, s with
  | String a p', String b s' => Ascii.eqb a b && agree p' s'
  | _, _ => true
  end.

(** The texts left of [p] when its first characters are taken away, one
    more each time. *)
Fixpoint tails (p : string) : list string :=
  match p with
  | EmptyString => []
  | String _ r => r :: tails r
  end.

(** No end of [p] starts [l] or is started by it: an occurrence of [p]
    that begins in the text before [l] does not run into [l]. *)
Definition no_entry (p l : string) : bool :=
  forallb (fun b => is_empty b || negb (agree b l)) (tails p).

(** The occurrences of [p] that start inside the text [l], when what
    follows [l] cannot change their number: [None] when an end of [l]
    starts [p] without holding all of it. *)
Fixpoint count_inside (p l : string) : option nat :=
  match l with
  | EmptyString => Some 0
  | String _ r =>
      match count_inside p r with
      | None => None
      | Some n =>
          if String.prefix p l then Some (S n)
          else if agree p l then None
          else Some n
      end
  end.

(** [p] neither occurs in, nor runs into or out of, the texts [ls]. *)
Definition apart (p : string) (ls : list string) : bool :=
  forallb (fun l => match count_inside p l with
                    | Some 0 => no_entry p l
                    | _ => false
                    end) ls.

(** [p] does not start with a decimal digit (and is not empty). *)
Definition starts_without_digit (p : string) : bool :=
  match p with
  | EmptyString => false
  | String a _ =>
      let n := nat_of_ascii a in negb (Nat.leb 48 n && Nat.leb n 57)
  end.

(** The pieces [ks] hold [n] occurrences of [p], whatever text follows
    them. *)
Definition counts (p : string) (ks : list chunk) (n : nat) : Prop :=
  forall rest,
    count p (flatten ks ++ rest)%string = n + count p rest.

(** The two sections of the metadata calls. *)
Definition init_section : string :=
  nl ++ "    from kale.common import mlmdutils as _kale_mlmdutils"
  ++ nl ++ "    _kale_mlmdutils.init_metadata()" ++ nl.

Definition complete_section : string :=
  nl ++ "    _kale_mlmdutils.call(" ++ dq ++ "mark_execution_complete" ++ dq ++ ")".

(** The import of the pod utilities and the linking of the input
    artifacts. *)
Definition import_podutils : string :=
  "from kale.common import podutils as _kale_podutils".

Definition link_input_lines : string :=
  nl ++ "    " ++ import_podutils
  ++ nl ++ "    _kale_mlmdutils.call(" ++ dq ++ "link_input_rok_artifacts" ++ dq ++ ")".

(** The section of the snapshot taken before the code blocks, and the
    one of the snapshot taken after them. *)
Definition snapshot_before_section (c : Context) : string :=
  link_input_lines ++ nl ++ "    " ++ snapshot_call c "True" ++ nl.

Definition snapshot_after_section (c : Context) : string :=
  (if String.eqb (step_name c) "final_auto_snapshot"
   then link_input_lines else EmptyString)
  ++ nl ++ "    " ++ snapshot_and_submit c ++ nl.

End Expected.

(** ** The code of the tutorial notebook

    The code cells of the Kale tutorial notebook, run from top to
    bottom.  The state a cell can change is what has been printed and
    how many times [random.randint] has been called; a cell may raise.
    Two things are the interpreter's, not the repository's, and are
    parameters: the value of the k-th call of [random.randint], and the
    limit [sys.get_int_max_str_digits()] on the number of digits of an
    integer that is turned into text (0, no limit, where the interpreter
    has none, as the 3.6 kernel the notebook names; 4300 by default
    where it has one). *)

Module Candy.

Import Str.

Inductive exn : Type := ValueError.

Record world : Type := {
  draws : nat;
  printed : list string
}.

Inductive outcome (A : Type) : Type :=
| Returned (a : A)
| Raised (e : exn).

Arguments Returned {A} a.
Arguments Raised {A} e.

(** A computation: from a world to an outcome and the world it leaves. *)
Definition run (A : Type) : Type := world -> outcome A * world.

Definition ret {A : Type} (a : A) : run A := fun w => (Returned a, w).

Definition bind {A B : Type} (m : run A) (f : A -> run B) : run B :=
  fun w =>
    match m w with
    | (Returned a, w') => f a w'
    | (Raised e, w') => (Raised e, w')
    end.

Notation "x <- m ;; f" := (bind m (fun x => f))
  (at level 61, m at next level, right associativity).
Notation "m ;;; f" := (bind m (fun _ => f))
  (at level 61, right associativity).

(** [print(s)] *)
Definition print (s : string) : run unit :=
  fun w => (Returned tt, {| draws := draws w; printed := printed w ++ [s] |}).

(** The decimal digits of an integer, after its sign. *)
Definition decimal (n : Z) : string := NilZero.string_of_int (Z.to_int n).

Section Interpreter.

(** The value of the k-th call of [random.randint(a, b)], when the range
    is not empty. *)
Variable randint : nat -> Z -> Z -> Z.

(** [sys.get_int_max_str_digits()]: 0 for no limit. *)
Variable max_str_digits : nat.

(** An integer has more than [max_str_digits] digits, the sign not
    counted, when its absolute value reaches that power of ten. *)
Definition too_long (n : Z) : bool :=
  negb (Nat.eqb max_str_digits 0)
  && (10 ^ Z.of_nat max_str_digits <=? Z.abs n)%Z.

(** An integer turned into text, as [str(n)], ["%s" % n] and
    ["{0}".format(n)] do: its decimal digits, or [ValueError] when a
    limit is set and the integer has more digits. *)
Definition str (n : Z) : run string :=
  fun w => if too_long n then (Raised ValueError, w)
           else (Returned (decimal n), w).

(** [random.randint(a, b)]: a value of the range, or [ValueError] when
    the range is empty. *)
Definition random_randint (a b : Z) : run Z :=
  fun w =>
    if (b <? a)%Z then (Raised ValueError, w)
    else (Returned (randint (draws w) a b),
          {| draws := S (draws w); printed := printed w |}).

(** [get_handful(kidname, left)] *)
Definition get_handful (kidname : string) (left : Z) : run Z :=
  if (left =? 0)%Z then
    print (kidname ++ " Got no candy!") ;;;
    ret 0%Z
  else
    c <- random_randint 1 left ;;
    digits <- str c ;;
    print (kidname ++ " got " ++ digits ++ " candies!") ;;;
    ret c.

(** The cell tagged [block:sack]. *)
Definition cell_sack (CANDIES : Z) : run unit :=
  digits <- str CANDIES ;;
  print ("Let's put " ++ digits
         ++ " candies in a bag and have three kids get a handful").

(** The cells tagged [block:kid1], [block:kid2] and [block:kid3]. *)
Definition cell_kid1 (CANDIES : Z) : run Z :=
  get_handful "Jack" CANDIES.

Definition cell_kid2 (CANDIES kid1 : Z) : run Z :=
  get_handful "Jill" (CANDIES - kid1)%Z.

Definition cell_kid3 (CANDIES kid1 kid2 : Z) : run Z :=
  kid3 <- get_handful "Paul" (CANDIES - kid1 - kid2)%Z ;;
  digits <- str (CANDIES - kid1 - kid2 - kid3)%Z ;;
  print ("There are " ++ digits ++ " candies still in the sack") ;;;
  ret kid3.

(** The notebook run from top to bottom, for a value of the pipeline
    parameter [CANDIES]; it yields what the three kids got. *)
Definition notebook (CANDIES : Z) : run (Z * Z * Z) :=
  cell_sack CANDIES ;;;
  kid1 <- cell_kid1 CANDIES ;;
  kid2 <- cell_kid2 CANDIES kid1 ;;
  kid3 <- cell_kid3 CANDIES kid1 kid2 ;;
  ret (kid1, kid2, kid3).

End Interpreter.

(** The value the notebook gives to [CANDIES]. *)
Definition CANDIES_default : Z := 37.

(** A source of random values that always returns the upper bound. *)
Definition take_all : nat -> Z -> Z -> Z := fun _ _ b => b.

(** The limit CPython sets by default where it has one. *)
Definition default_max_str_digits : nat := 4300.

(** The line the sack cell prints, and the line that ends the run. *)
Definition sack_line (CANDIES : Z) : string :=
  ("Let's put " ++ decimal CANDIES
   ++ " candies in a bag and have three kids get a handful")%string.

Definition rest_line (n : Z) : string :=
  ("There are " ++ decimal n ++ " candies still in the sack")%string.

(** The world before the first cell. *)
Definition fresh : world := {| draws := 0; printed := [] |}.

End Candy.

(** ** Properties of the pipeline-step template *)

Module TemplateProps.

Import Str Jinja Template Layout Expected.

(** *** Strings and emitted pieces *)

Lemma append_assoc (a b c : string) : ((a ++ b) ++ c = a ++ (b ++ c))%string.
Proof.
  induction a as [|x a IH]; simpl.
  - reflexivity.
  - rewrite IH. reflexivity.
Qed.

Lemma append_nil_r (a : string) : (a ++ EmptyString = a)%string.
Proof.
  induction a as [|x a IH]; simpl.
  - reflexivity.
  - rewrite IH. reflexivity.
Qed.

(** Two texts built from the same pieces are equal: concatenations are
    nested to the right and literal text is computed, until nothing moves. *)
Ltac same_text :=
  cbn;
  repeat (progress (rewrite ?append_assoc; cbn [append]));
  reflexivity.

Lemma flatten_app (a b : list chunk) :
  flatten (a ++ b) = (flatten a ++ flatten b)%string.
Proof.
  induction a as [|k a IH]; simpl.
  - reflexivity.
  - rewrite IH, append_assoc. reflexivity.
Qed.

(** A loop whose bodies agree runs the same. *)
Lemma iterate_ext (f g : nat -> string -> list chunk) :
  (forall i x, f i x = g i x) ->
  forall xs i, iterate f i xs = iterate g i xs.
Proof.
  intros Hfg xs; induction xs as [|x xs IH]; intros i; simpl.
  - reflexivity.
  - rewrite Hfg, IH. reflexivity.
Qed.

(** The text of a loop whose body does not read [loop.index]. *)
Lemma flatten_iterate (g : string -> list chunk) (xs : list string) :
  forall i, flatten (iterate (fun _ x => g x) i xs)
            = cat (map (fun x => flatten (g x)) xs).
Proof.
  induction xs as [|x xs IH]; intros i; simpl.
  - reflexivity.
  - rewrite flatten_app, IH. reflexivity.
Qed.

Lemma cat_map_ext (f g : string -> string) (xs : list string) :
  (forall x, f x = g x) -> cat (map f xs) = cat (map g xs).
Proof.
  intros Hfg; induction xs as [|x xs IH]; simpl.
  - reflexivity.
  - rewrite Hfg, IH. reflexivity.
Qed.

Lemma contains_refl (s : string) : contains s s.
Proof. exists EmptyString, EmptyString. rewrite append_nil_r. reflexivity. Qed.

Lemma contains_app_l (a b x : string) : contains a x -> contains (a ++ b) x.
Proof.
  intros (pre & post & ->). exists pre, (post ++ b)%string.
  rewrite !append_assoc. reflexivity.
Qed.

Lemma contains_app_r (a b x : string) : contains b x -> contains (a ++ b) x.
Proof.
  intros (pre & post & ->). exists (a ++ pre)%string, post.
  rewrite !append_assoc. reflexivity.
Qed.

(** *** Occurrences in a text *)

Lemma prefix_nil (s : string) : String.prefix EmptyString s = true.
Proof. destruct s; reflexivity. Qed.

Lemma prefix_cons (a b : ascii) (p s : string) :
  String.prefix (String a p) (String b s) = true
  <-> a = b /\ String.prefix p s = true.
Proof.
  cbn [String.prefix]. destruct (ascii_dec a b) as [->|Hne].
  - tauto.
  - split; [discriminate | intros [E _]; contradiction].
Qed.

(** A text that starts with [p] still does when it goes on. *)
Lemma prefix_app_l (p s t : string) :
  String.prefix p s = true -> String.prefix p (s ++ t)%string = true.
Proof.
  revert s; induction p as [|a p IH]; intros s H.
  - apply prefix_nil.
  - destruct s as [|b s]; [discriminate|].
    apply prefix_cons in H. destruct H as [-> H].
    cbn [append]. apply prefix_cons. split; [reflexivity | apply IH, H].
Qed.

Lemma prefix_agree (p s t : string) :
  String.prefix p (s ++ t)%string = true -> agree p s = true.
Proof.
  revert s; induction p as [|a p IH]; intros s H.
  - reflexivity.
  - destruct s as [|b s]; [reflexivity|].
    cbn [append] in H. apply prefix_cons in H. destruct H as [-> H].
    cbn [agree]. rewrite Ascii.eqb_refl. apply IH, H.
Qed.

(** What [count_inside] finds is what there is, whatever follows. *)
Lemma count_inside_sound (p : string) :
  forall l n, count_inside p l = Some n ->
  forall rest, count p (l ++ rest)%string = n + count p rest.
Proof.
  induction l as [|a l IH]; intros n H rest.
  - injection H as <-. reflexivity.
  - cbn [count_inside] in H.
    destruct (count_inside p l) as [m|] eqn:Em; [|discriminate].
    specialize (IH m eq_refl rest).
    cbn [append count]. rewrite IH.
    destruct (String.prefix p (String a l)) eqn:Ep.
    + injection H as <-.
      change (String a (l ++ rest)%string) with (String a l ++ rest)%string.
      rewrite (prefix_app_l _ _ _ Ep). reflexivity.
    + destruct (agree p (String a l)) eqn:Ea; [discriminate|].
      injection H as <-.
      destruct (String.prefix p (String a (l ++ rest)%string)) eqn:Ep'; [|reflexivity].
      change (String a (l ++ rest)%string) with (String a l ++ rest)%string in Ep'.
      apply prefix_agree in Ep'. congruence.
Qed.

(** A text that starts with [p] once the text [w] is put before what
    follows: either [w] holds all of [p], or an end of [p] starts what
    follows. *)
Lemma prefix_cross (t : string) :
  forall w a p,
    String.prefix p (String a w ++ t)%string = true ->
    String.prefix p (String a w) = true
    \/ exists b, In b (tails p) /\ is_empty b = false
                 /\ String.prefix b t = true.
Proof.
  induction w as [|a' w IH]; intros a p H.
  - destruct p as [|c p]; [left; reflexivity|].
    cbn [append] in H. apply prefix_cons in H. destruct H as [-> H].
    destruct p as [|c' p].
    + left. apply prefix_cons. split; reflexivity.
    + right. exists (String c' p). cbn [tails In is_empty]. auto.
  - destruct p as [|c p]; [left; reflexivity|].
    cbn [append] in H. apply prefix_cons in H. destruct H as [-> H].
    destruct (IH a' p H) as [Hin|(b & Hb & Hne & Hpre)].
    + left. apply prefix_cons. split; [reflexivity | exact Hin].
    + right. exists b. cbn [tails In]. auto.
Qed.

Lemma count_zero_cons (p : string) (a : ascii) (v : string) :
  count p (String a v) = 0 ->
  String.prefix p (String a v) = false /\ count p v = 0.
Proof.
  cbn [count]. destruct (String.prefix p (String a v)); [discriminate|].
  intros H. split; [reflexivity | exact H].
Qed.

(** A value that does not hold [p], followed by text that no end of
    [p] runs into, adds no occurrence. *)
Lemma count_value (p l : string) :
  no_entry p l = true ->
  forall v rest,
    count p v = 0 ->
    count p (v ++ l ++ rest)%string = count p (l ++ rest)%string.
Proof.
  intros Hl. induction v as [|a v IH]; intros rest Hv.
  - reflexivity.
  - apply count_zero_cons in Hv. destruct Hv as [Hpre Hv].
    cbn [append count]. rewrite (IH rest Hv).
    destruct (String.prefix p (String a (v ++ l ++ rest)%string)) eqn:E; [|reflexivity].
    exfalso.
    change (String a (v ++ l ++ rest)%string) with (String a v ++ (l ++ rest))%string in E.
    apply prefix_cross in E. destruct E as [E|(b & Hb & Hne & E)].
    + congruence.
    + apply prefix_agree in E.
      unfold no_entry in Hl. rewrite forallb_forall in Hl.
      specialize (Hl b Hb). rewrite Hne, E in Hl. discriminate.
Qed.

Lemma count_zero (p s : string) : occurs p s = false <-> count p s = 0.
Proof.
  induction s as [|a s IH].
  - destruct p; cbn; split; (discriminate || reflexivity).
  - cbn [occurs count].
    destruct (String.prefix p (String a s)); cbn [orb].
    + split; discriminate.
    + exact IH.
Qed.

Lemma count_positive (p s : string) : occurs p s = true <-> 0 < count p s.
Proof.
  pose proof (count_zero p s) as H.
  destruct (occurs p s); split; intros H1; try reflexivity; try discriminate.
  - destruct (count p s); [|lia]. destruct H as [_ H]. discriminate (H eq_refl).
  - destruct H as [H _]. rewrite (H eq_refl) in H1. lia.
Qed.

(** Text that goes on holds at least what it held. *)
Lemma count_app_le (p s t : string) : count p s <= count p (s ++ t)%string.
Proof.
  induction s as [|a s IH].
  - cbn [append count]. destruct (String.prefix p "") eqn:E.
    + destruct p; [|discriminate]. destruct t; cbn; lia.
    + lia.
  - cbn [append count].
    destruct (String.prefix p (String a s)) eqn:E.
    + change (String a (s ++ t)%string) with (String a s ++ t)%string.
      rewrite (prefix_app_l _ _ _ E). lia.
    + destruct (String.prefix p (String a (s ++ t)%string)); lia.
Qed.

(** *** Occurrences among emitted pieces *)

Lemma counts_nil (p : string) : counts p [] 0.
Proof. intros rest. reflexivity. Qed.

Lemma counts_app (p : string) (a b : list chunk) (n m : nat) :
  counts p a n -> counts p b m -> counts p (a ++ b) (n + m).
Proof.
  intros Ha Hb rest. rewrite flatten_app, append_assoc, Ha, Hb. lia.
Qed.

Lemma counts_lit (p s : string) (r : list chunk) (n m : nat) :
  count_inside p s = Some n -> counts p r m -> counts p (Lit s :: r) (n + m).
Proof.
  intros Hs Hr rest. cbn [flatten chunk_text].
  rewrite append_assoc, (count_inside_sound _ _ _ Hs), Hr. lia.
Qed.

Lemma counts_val (p v s : string) (r : list chunk) (m : nat) :
  occurs p v = false -> no_entry p s = true ->
  counts p (Lit s :: r) m -> counts p (Val v :: Lit s :: r) m.
Proof.
  intros Hv Hs Hr rest. specialize (Hr rest).
  cbn [flatten chunk_text] in *.
  rewrite !append_assoc in *.
  rewrite (count_value _ _ Hs) by (apply count_zero, Hv).
  exact Hr.
Qed.

Lemma counts_iterate (p : string) (f : nat -> string -> list chunk)
    (xs : list string) :
  (forall i x, In x xs -> counts p (f i x) 0) ->
  forall i, counts p (iterate f i xs) 0.
Proof.
  induction xs as [|x xs IH]; intros Hf i.
  - apply counts_nil.
  - cbn [iterate]. apply (counts_app _ _ _ 0 0).
    + apply Hf. left. reflexivity.
    + apply IH. intros j y Hy. apply Hf. right. exact Hy.
Qed.

Lemma counts_if (p : string) (b : bool) (ks : list chunk) (n : nat) :
  counts p ks n -> counts p (if b then ks else []) (if b then n else 0).
Proof. destruct b; [auto | intros _; apply counts_nil]. Qed.

(** The whole of what the pieces hold. *)
Lemma counts_all (p : string) (ks : list chunk) (n : nat) :
  is_empty p = false -> counts p ks n -> count p (flatten ks) = n.
Proof.
  intros Hp H. specialize (H EmptyString). rewrite append_nil_r in H.
  rewrite H. destruct p; [discriminate|]. cbn. lia.
Qed.

(** *** Values joined by a separator *)

Lemma count_join (p sep : string) (ys : list string) :
  apart p [sep] = true ->
  (forall y, In y ys ->
     forall l rest, no_entry p l = true ->
       count p (y ++ l ++ rest)%string = count p (l ++ rest)%string) ->
  forall l rest, no_entry p l = true ->
    count p (join sep ys ++ l ++ rest)%string = count p (l ++ rest)%string.
Proof.
  intros Hsep. cbn [apart forallb] in Hsep. rewrite andb_true_r in Hsep.
  destruct (count_inside p sep) as [[|k]|] eqn:Ec; try discriminate.
  induction ys as [|y ys IH]; intros Hy l rest Hl.
  - reflexivity.
  - destruct ys as [|y' ys].
    + cbn [join]. apply Hy; [left; reflexivity | exact Hl].
    + change (join sep (y :: y' :: ys))
        with (y ++ sep ++ join sep (y' :: ys))%string.
      rewrite !append_assoc.
      rewrite (Hy y (or_introl eq_refl) sep _ Hsep).
      rewrite (count_inside_sound _ _ _ Ec). cbn [Nat.add].
      apply IH; [|exact Hl].
      intros z Hz. apply Hy. right. exact Hz.
Qed.

Lemma occurs_join (p sep : string) (ys : list string) :
  is_empty p = false ->
  apart p [sep] = true ->
  (forall y, In y ys -> occurs p y = false) ->
  occurs p (join sep ys) = false.
Proof.
  intros Hp Hsep Hy. apply count_zero.
  assert (Hno : no_entry p sep = true).
  { cbn [apart forallb] in Hsep. rewrite andb_true_r in Hsep.
    destruct (count_inside p sep) as [[|k]|]; try discriminate. exact Hsep. }
  assert (Hin : count_inside p sep = Some 0).
  { cbn [apart forallb] in Hsep.
    destruct (count_inside p sep) as [[|k]|]; try discriminate. reflexivity. }
  pose proof (count_app_le p (join sep ys) (sep ++ EmptyString)) as Hle.
  rewrite (count_join p sep ys Hsep) in Hle.
  - rewrite (count_inside_sound _ _ _ Hin) in Hle.
    destruct p as [|a p]; [discriminate|].
    cbn in Hle. lia.
  - intros y Hin' l rest Hl. apply count_value; [exact Hl|].
    apply count_zero, Hy, Hin'.
  - exact Hno.
Qed.

(** *** Numbers *)

Lemma occurs_digits (p : string) :
  starts_without_digit p = true ->
  forall u, occurs p (NilEmpty.string_of_uint u) = false.
Proof.
  destruct p as [|a p]; [discriminate|]. intros Hp.
  induction u as [|u IH|u IH|u IH|u IH|u IH|u IH|u IH|u IH|u IH|u IH];
    cbn [NilEmpty.string_of_uint occurs]; [reflexivity|..];
    rewrite IH, orb_false_r; cbn [String.prefix];
    match goal with
    | |- (if ascii_dec a ?d then _ else _) = false =>
        destruct (ascii_dec a d) as [->|]; [discriminate Hp | reflexivity]
    end.
Qed.

Lemma occurs_of_nat (p : string) (n : nat) :
  starts_without_digit p = true -> occurs p (of_nat n) = false.
Proof. intros Hp. apply occurs_digits, Hp. Qed.

Lemma occurs_empty (s : string) : occurs EmptyString s = true.
Proof. destruct s; reflexivity. Qed.

Lemma apart_in (p : string) (ls : list string) (l : string) :
  apart p ls = true -> In l ls ->
  count_inside p l = Some 0 /\ no_entry p l = true.
Proof.
  unfold apart. rewrite forallb_forall. intros H Hin.
  specialize (H l Hin).
  destruct (count_inside p l) as [[|k]|]; try discriminate. auto.
Qed.

(** *** Named variables *)

(** What [bound] tells of each of the ten names. *)
Lemma bound_lookups (vars : Named.variables) (c : Context) :
  Named.bound vars = Some c ->
  vars "step_name" = Some (Named.VStr (step_name c))
  /\ vars "parameters_names" = Some (Named.VList (parameters_names c))
  /\ vars "parameters_types" = Some (Named.VList (parameters_types c))
  /\ vars "autosnapshot" = Some (Named.VBool (autosnapshot c))
  /\ vars "in_variables" = Some (Named.VList (in_variables c))
  /\ vars "out_variables" = Some (Named.VList (out_variables c))
  /\ vars "function_body" = Some (Named.VList (function_body c))
  /\ vars "pipeline_name" = Some (Named.VStr (pipeline_name c))
  /\ vars "nb_path" = Some (Named.VStr (nb_path c))
  /\ vars "marshal_path" = Some (Named.VStr (marshal_path c)).
Proof.
  unfold Named.bound, Named.as_text, Named.as_list, Named.as_flag.
  destruct (vars "step_name") as [[?|sn|?]|]; try discriminate.
  destruct (vars "parameters_names") as [[?|?|pn]|]; try discriminate.
  destruct (vars "parameters_types") as [[?|?|pt]|]; try discriminate.
  destruct (vars "autosnapshot") as [[au|?|?]|]; try discriminate.
  destruct (vars "in_variables") as [[?|?|iv]|]; try discriminate.
  destruct (vars "out_variables") as [[?|?|ov]|]; try discriminate.
  destruct (vars "function_body") as [[?|?|fb]|]; try discriminate.
  destruct (vars "pipeline_name") as [[?|pl|?]|]; try discriminate.
  destruct (vars "nb_path") as [[?|nb|?]|]; try discriminate.
  destruct (vars "marshal_path") as [[?|mp|?]|]; try discriminate.
  intros H. injection H as <-. cbn. repeat split.
Qed.

Section Rendering.

Variable indent : nat -> bool -> string -> string.

Abbreviation emit := (Template.emit indent).
Abbreviation render := (Template.render indent).
Abbreviation layout := (Layout.layout indent).
Abbreviation code_blocks := (Layout.code_blocks indent).
Abbreviation body_blocks := (Layout.body_blocks indent).
Abbreviation clean := (Expected.clean indent).
Abbreviation render_named := (Named.render_named indent).

(** Rendering the template yields the pieces of [layout], in its order. *)
Lemma emit_layout (c : Context) : emit c = layout c.
Proof.
  unfold Template.emit, emit_template.
  cbv -[step_name parameters_names parameters_types autosnapshot
        in_variables out_variables function_body pipeline_name nb_path
        marshal_path len Nat.ltb Nat.eqb negb andb orb String.eqb show
        type_at equals join of_nat iterate Datatypes.app].
  cbn [ctx item loop_index].
  rewrite !app_nil_r.
  repeat match goal with
  | |- context [iterate ?f 1 ?xs] =>
      erewrite (iterate_ext f) by
        (intros i x; cbv beta;
         match goal with
         | |- ?l = _ =>
             match l with
             | context C [?a ++ []] =>
                 let l' := context C [a] in
                 transitivity l'; [rewrite app_nil_r; reflexivity | reflexivity]
             end
         end)
  end.
  unfold Layout.layout, signature, annotated_parameters, Layout.code_blocks,
    run_blocks, blocks_elements, snapshot_after, snapshot_before,
    loading_block, saving_block, parameters_block.
  rewrite <- !app_assoc.
  reflexivity.
Qed.

(** The output is the text of the emitted pieces, in a row. *)
Lemma render_emit (c : Context) : render c = flatten (emit c).
Proof. reflexivity. Qed.

Lemma render_layout (c : Context) : render c = flatten (layout c).
Proof. rewrite render_emit, emit_layout. reflexivity. Qed.

Lemma loading_block_text (c : Context) :
  flatten (loading_block c)
  = data_loading_text (marshal_path c) (in_variables c).
Proof.
  unfold loading_block, data_loading_text, import_marshal_line,
    set_directory_line.
  rewrite !flatten_app, flatten_iterate.
  rewrite (cat_map_ext _ load_line).
  2:{ intros x. unfold load_line, nl, dq. cbn. rewrite ?append_assoc. reflexivity. }
  unfold nl, dq. cbn. rewrite ?append_assoc. cbn.
  reflexivity.
Qed.

Lemma saving_block_text (c : Context) :
  flatten (saving_block c)
  = data_saving_text (marshal_path c) (out_variables c).
Proof.
  unfold saving_block, data_saving_text, import_marshal_line,
    set_directory_line.
  rewrite !flatten_app, flatten_iterate.
  rewrite (cat_map_ext _ save_line).
  2:{ intros x. unfold save_line, nl, dq. cbn. rewrite ?append_assoc. reflexivity. }
  unfold nl, dq. cbn. rewrite ?append_assoc. cbn.
  reflexivity.
Qed.

Lemma nonempty_len (xs : list string) : xs <> [] -> (0 <? len xs)%nat = true.
Proof. destruct xs; [congruence | reflexivity]. Qed.

(** C1.  The output re-loads and saves variables through the marshalling
    directory: when [in_variables] is not empty the output holds the
    data-loading block, which sets the kale data directory to
    [marshal_path] and then assigns to each name of [in_variables], in
    order, what [_kale_marshal_utils.load] returns for it; when
    [out_variables] is not empty it holds the data-saving block, which
    sets the same directory and then calls [_kale_marshal_utils.save] on
    each variable of [out_variables] and its name, in order. *)
Theorem data_blocks_emitted (c : Context) :
  (in_variables c <> [] ->
   contains (render c) (data_loading_text (marshal_path c) (in_variables c)))
  /\ (out_variables c <> [] ->
      contains (render c) (data_saving_text (marshal_path c) (out_variables c))).
Proof.
  split; intros Hne; apply nonempty_len in Hne;
    rewrite render_layout; unfold Layout.layout, Layout.code_blocks;
    rewrite Hne, !flatten_app.
  - rewrite loading_block_text.
    do 5 apply contains_app_r. apply contains_app_l, contains_app_l, contains_refl.
  - rewrite saving_block_text.
    do 5 apply contains_app_r.
    apply contains_app_l, contains_app_r, contains_app_r, contains_app_l, contains_refl.
Qed.

(** *** The signature *)

Lemma annotated_parameters_flat (types : list string) (n : nat) :
  forall xs k,
    n = k + List.length xs ->
    flatten (iterate (fun i x =>
                        [Val x; Lit ": "; Val (show (nth_error types (i - 1)))]
                        ++ (if (i <? n)%nat then [Lit ","] else []))
                     (S k) xs)
    = join "," (map (annotation_at types) (combine (seq k (List.length xs)) xs)).
Proof.
  induction xs as [|x xs IH]; intros k Hn.
  - reflexivity.
  - cbn [iterate]. rewrite flatten_app, (IH (S k)) by (simpl in Hn; lia).
    cbn [List.length seq combine map].
    replace (S k - 1) with k by lia.
    unfold annotation_at at 2. cbn [fst snd].
    destruct xs as [|y xs].
    + replace (S k <? n)%nat with false
        by (symmetry; apply Nat.ltb_ge; simpl in Hn; lia).
      cbn. rewrite !append_nil_r. reflexivity.
    + replace (S k <? n)%nat with true
        by (symmetry; apply Nat.ltb_lt; simpl in Hn; lia).
      cbn [List.length seq combine map join Datatypes.app flatten chunk_text].
      rewrite ?append_assoc. reflexivity.
Qed.

Lemma signature_flat (c : Context) : flatten (signature c) = signature_text c.
Proof.
  unfold signature, signature_text, annotated_parameters, indexed.
  rewrite !flatten_app, (annotated_parameters_flat _ _ _ 0) by reflexivity.
  cbn. rewrite ?append_assoc. reflexivity.
Qed.

Lemma annotations_combine :
  forall names types pre k,
    List.length pre = k ->
    List.length names <= List.length types ->
    map (annotation_at (pre ++ types)) (combine (seq k (List.length names)) names)
    = map annotated (combine names types).
Proof.
  induction names as [|x names IH]; intros types pre k Hk Hle.
  - reflexivity.
  - destruct types as [|t types]; [simpl in Hle; lia|].
    cbn [List.length seq combine map]. f_equal.
    + unfold annotation_at, annotated. cbn [fst snd].
      rewrite nth_error_app2 by lia.
      replace (k - List.length pre) with 0 by lia. reflexivity.
    + replace (pre ++ t :: types) with ((pre ++ [t]) ++ types)
        by (rewrite <- app_assoc; reflexivity).
      apply IH.
      * rewrite length_app. simpl. lia.
      * simpl in Hle. lia.
Qed.

Lemma signature_text_typed (c : Context) :
  List.length (parameters_names c) <= List.length (parameters_types c) ->
  signature_text c
  = signature_line (step_name c) (parameters_names c) (parameters_types c).
Proof.
  intros Hle. unfold signature_text, signature_line, indexed.
  pose proof (annotations_combine (parameters_names c) (parameters_types c)
                [] 0 eq_refl Hle) as H.
  cbn [Datatypes.app] in H. rewrite H. reflexivity.
Qed.

(** What follows the signature starts on a new line. *)
Lemma after_signature (c : Context) :
  exists rest, render c = (signature_text c ++ nl ++ rest)%string.
Proof.
  rewrite render_layout. unfold Layout.layout.
  rewrite flatten_app, signature_flat.
  destruct (idle c); [|destruct (0 <? len (parameters_names c))%nat;
                       [|destruct (active c)]];
    cbn [pass_statement parameters_block metadata_init Datatypes.app flatten chunk_text];
    unfold nl; cbn [append]; eexists; reflexivity.
Qed.

(** C2.  In every context the output starts with the definition of a
    Python function named [step_name] whose parameters are those of
    [parameters_names], in order, each annotated with the entry at the
    same index of [parameters_types], separated by commas, with no comma
    after the last one, and the line ends there.  When every parameter
    has a type, that line is [signature_line]: the names paired with
    the types; an empty [parameters_names] gives an empty parameter
    list. *)
Theorem first_line_is_signature (c : Context) :
  (exists rest, render c = (signature_text c ++ nl ++ rest)%string)
  /\ (List.length (parameters_names c) <= List.length (parameters_types c) ->
      signature_text c
      = signature_line (step_name c) (parameters_names c) (parameters_types c))
  /\ (parameters_names c = [] ->
      signature_text c = ("def " ++ step_name c ++ "():")%string).
Proof.
  split; [apply after_signature|].
  split; [apply signature_text_typed|].
  intros Hnil. unfold signature_text. rewrite Hnil. reflexivity.
Qed.

(** *** The step that has nothing to do *)

Lemma idle_iff (c : Context) :
  idle c = true
  <-> autosnapshot c = false /\ in_variables c = [] /\ out_variables c = []
      /\ function_body c = [].
Proof.
  unfold idle.
  destruct (autosnapshot c), (in_variables c), (out_variables c),
    (function_body c); cbn; intuition congruence.
Qed.

Lemma active_idle (c : Context) : active c = negb (idle c).
Proof.
  unfold active, idle.
  destruct (autosnapshot c), (in_variables c), (out_variables c),
    (function_body c); reflexivity.
Qed.

Lemma active_iff (c : Context) : active c = true <-> busy c.
Proof.
  unfold active, busy.
  destruct (autosnapshot c), (in_variables c), (out_variables c),
    (function_body c); cbn; intuition congruence.
Qed.

Lemma layout_idle (c : Context) :
  idle c = true ->
  layout c = signature c ++ pass_statement ++ [Lit nl; Lit (nl ++ nl)].
Proof.
  intros Hidle. unfold Layout.layout, Layout.code_blocks, Layout.body_blocks, has_blocks.
  rewrite active_idle, Hidle.
  apply idle_iff in Hidle. destruct Hidle as (-> & -> & -> & ->).
  reflexivity.
Qed.

(** C8.  With [autosnapshot] false and [in_variables], [out_variables]
    and [function_body] empty, the output is the signature followed by
    the single statement [pass] (and blank lines), whatever
    [parameters_names] is: no pipeline-parameters block, no marshalling
    code and no metadata call. *)
Theorem idle_step_is_pass (c : Context) :
  autosnapshot c = false ->
  in_variables c = [] ->
  out_variables c = [] ->
  function_body c = [] ->
  render c = (signature_text c ++ pass_body)%string.
Proof.
  intros Ha Hi Ho Hb.
  rewrite render_layout, layout_idle by (apply idle_iff; auto).
  rewrite flatten_app, signature_flat. reflexivity.
Qed.

(** *** The pipeline-parameters block *)

Lemma equals_is_str (types : list string) (i : nat) :
  equals (nth_error types i) "str" = is_str types i.
Proof. reflexivity. Qed.

Lemma assignments_flat (types : list string) :
  forall xs k,
    flatten (iterate (fun i x =>
                        [Lit (nl ++ "    ")]
                        ++ (if equals (nth_error types (i - 1)) "str"
                            then [Val x; Lit (" = " ++ dq ++ "{}" ++ dq)]
                            else [Val x; Lit " = {}"]))
                     (S k) xs)
    = cat (map (assignment_at types) (combine (seq k (List.length xs)) xs)).
Proof.
  induction xs as [|x xs IH]; intros k.
  - reflexivity.
  - cbn [iterate]. rewrite flatten_app, (IH (S k)).
    cbn [List.length seq combine map cat]. f_equal.
    replace (S k - 1) with k by lia.
    unfold assignment_at. cbn [fst snd]. rewrite equals_is_str.
    destruct (is_str types k); cbn; rewrite ?append_nil_r; reflexivity.
Qed.

Lemma parameters_block_flat (c : Context) :
  flatten (parameters_block c)
  = parameters_block_text (parameters_names c) (parameters_types c).
Proof.
  unfold parameters_block, parameters_block_text, indexed.
  rewrite !flatten_app.
  pose proof (assignments_flat (parameters_types c) (parameters_names c) 0) as H.
  unfold nl in H. cbn [append] in H. unfold nl.
  cbn [append]. rewrite H.
  cbn. rewrite ?append_assoc. reflexivity.
Qed.

(** *** Pieces that are not emitted *)

Lemma existsb_iterate (P : chunk -> bool) (f : nat -> string -> list chunk) :
  (forall i x, existsb P (f i x) = false) ->
  forall xs i, existsb P (iterate f i xs) = false.
Proof.
  intros Hf xs; induction xs as [|x xs IH]; intros i; simpl.
  - reflexivity.
  - rewrite existsb_app, Hf, IH. reflexivity.
Qed.

Lemma emits_app (p : string) (a b : list chunk) :
  emits p (a ++ b) = emits p a || emits p b.
Proof. apply existsb_app. Qed.

(** No template text among the pieces mentions the given string: by
    cases on the conditions, loop by loop. *)
Ltac absent :=
  lazymatch goal with
  | |- emits _ _ = false => unfold emits; absent
  | |- existsb _ (_ ++ _) = false =>
      rewrite existsb_app; apply orb_false_intro; absent
  | |- existsb _ (if ?b then _ else _) = false => destruct b; absent
  | |- existsb _ (iterate _ _ _) = false =>
      apply existsb_iterate; intros; absent
  | |- _ => vm_compute; reflexivity
  end.

Ltac unfold_layout :=
  unfold Layout.layout, signature, annotated_parameters, Layout.code_blocks,
    Layout.body_blocks, run_blocks, blocks_elements, snapshot_after,
    snapshot_before, loading_block, saving_block, parameters_block.

(** C9.  When [parameters_names] is not empty and the step has
    something to do, the signature is followed by the
    pipeline-parameters block: a parameter whose entry in
    [parameters_types] is [str] is assigned its value between double
    quotes, any other parameter its value as it is, and the [format]
    call receives the names of [parameters_names] joined in order.
    Otherwise no such block is emitted. *)
Theorem parameters_block_emitted (c : Context) :
  (parameters_names c <> [] -> busy c ->
   exists rest,
     render c
     = (signature_text c
        ++ parameters_block_text (parameters_names c) (parameters_types c)
        ++ rest)%string)
  /\ (parameters_names c = [] \/ ~ busy c ->
      emits "_kale_pipeline_parameters_block" (emit c) = false).
Proof.
  split.
  - intros Hne Hbusy. apply nonempty_len in Hne. apply active_iff in Hbusy.
    rewrite active_idle in Hbusy. apply negb_true_iff in Hbusy.
    rewrite render_layout. unfold Layout.layout.
    rewrite Hbusy, Hne, !flatten_app, signature_flat, parameters_block_flat.
    eexists. reflexivity.
  - intros H. rewrite emit_layout.
    assert (Hcase : idle c = true \/ parameters_names c = []).
    { destruct H as [H|H]; [right; exact H|left].
      rewrite <- active_iff, active_idle in H.
      destruct (idle c); [reflexivity | exfalso; apply H; reflexivity]. }
    destruct Hcase as [Hidle|Hnil].
    + rewrite layout_idle by exact Hidle. unfold signature, annotated_parameters.
      absent.
    + unfold_layout. rewrite Hnil. cbn [len List.length Nat.ltb Nat.leb iterate].
      absent.
Qed.

(** *** Occurrences in the output *)

Lemma clean_values (p : string) (c : Context) :
  clean p c = true ->
  occurs p (step_name c) = false
  /\ occurs p (pipeline_name c) = false
  /\ occurs p (nb_path c) = false
  /\ occurs p (marshal_path c) = false
  /\ (forall x, In x (parameters_names c) -> occurs p x = false)
  /\ (forall x, In x (parameters_types c) -> occurs p x = false)
  /\ (forall x, In x (in_variables c) -> occurs p x = false)
  /\ (forall x, In x (out_variables c) -> occurs p x = false)
  /\ (forall x, In x (function_body c) -> occurs p (indent 4 true x) = false).
Proof.
  unfold Expected.clean, context_values. rewrite forallb_forall. intros H.
  assert (Hv : forall v,
             In v ([step_name c; pipeline_name c; nb_path c; marshal_path c]
                   ++ parameters_names c ++ parameters_types c
                   ++ in_variables c ++ out_variables c
                   ++ map (indent 4 true) (function_body c)) ->
             occurs p v = false)
    by (intros v Hin; apply negb_true_iff, H, Hin).
  repeat split; intros; apply Hv; rewrite ?in_app_iff; cbn [In]; auto 10.
  do 5 right. apply in_map. assumption.
Qed.

Lemma clean_nonempty (p : string) (c : Context) :
  clean p c = true -> is_empty p = false.
Proof.
  intros H. apply clean_values in H. destruct H as (H & _).
  destruct p; [|reflexivity]. rewrite occurs_empty in H. discriminate.
Qed.

(** The signature holds nothing of a text that is apart from its
    punctuation and that the names and types do not hold. *)
Lemma signature_counts (p : string) (c : Context) :
  apart p ["def "; "("; ": "; ","; "):"] = true ->
  clean p c = true ->
  forall rest, count p (signature_text c ++ rest)%string = count p rest.
Proof.
  intros Hp Hc rest.
  pose proof (clean_nonempty _ _ Hc) as Hne.
  apply clean_values in Hc.
  destruct Hc as (Hname & _ & _ & _ & Hnames & Htypes & _).
  destruct (apart_in _ _ "def " Hp) as [Cdef _]; [cbn; auto|].
  destruct (apart_in _ _ "(" Hp) as [Copen Eopen]; [cbn; auto|].
  destruct (apart_in _ _ ": " Hp) as [Ccolon Ecolon]; [cbn; auto|].
  destruct (apart_in _ _ "," Hp) as [Ccomma Ecomma]; [cbn; auto|].
  destruct (apart_in _ _ "):" Hp) as [Cclose Eclose]; [cbn; auto 6|].
  unfold signature_text. rewrite !append_assoc.
  rewrite (count_inside_sound _ _ _ Cdef). cbn [Nat.add].
  rewrite (count_value _ _ Eopen) by (apply count_zero, Hname).
  rewrite (count_inside_sound _ _ _ Copen). cbn [Nat.add].
  rewrite count_join.
  - apply (count_inside_sound _ _ _ Cclose).
  - cbn [apart forallb]. rewrite Ccomma, Ecomma. reflexivity.
  - intros y Hy l r Hl. apply in_map_iff in Hy.
    destruct Hy as ([i x] & <- & Hin). unfold annotation_at. cbn [fst snd].
    apply in_combine_r in Hin.
    rewrite !append_assoc.
    rewrite (count_value _ _ Ecolon) by (apply count_zero, Hnames, Hin).
    rewrite (count_inside_sound _ _ _ Ccolon). cbn [Nat.add].
    apply (count_value _ _ Hl). apply count_zero.
    destruct (nth_error (parameters_types c) i) as [t|] eqn:Et; cbn [show].
    + apply Htypes. eapply nth_error_In, Et.
    + destruct p; [discriminate | reflexivity].
  - exact Eclose.
Qed.

(** A printed value does not hold [p]: a value of the context, a number,
    or names joined by commas. *)
Ltac silent_value :=
  first
    [ assumption
    | match goal with
      | H : forall x, In x _ -> occurs _ _ = false |- _ => apply H; assumption
      end
    | apply occurs_of_nat; vm_compute; reflexivity
    | apply occurs_join;
      [reflexivity | vm_compute; reflexivity | assumption] ].

(** Pieces that hold no occurrence of [p]: by cases on the conditions,
    loop by loop, each text of the template computed. *)
Ltac tally :=
  lazymatch goal with
  | |- counts _ (_ ++ _) 0 => apply (counts_app _ _ _ 0 0); tally
  | |- counts _ (if ?b then _ else _) 0 => destruct b; tally
  | |- counts _ (iterate _ _ _) 0 => apply counts_iterate; intros; tally
  | |- counts _ [] 0 => apply counts_nil
  | |- counts _ (Lit _ :: _) 0 =>
      apply (counts_lit _ _ _ 0 0); [vm_compute; reflexivity | tally]
  | |- counts _ (Val _ :: Lit _ :: _) 0 =>
      apply counts_val; [silent_value | vm_compute; reflexivity | tally]
  end.

(** The output holds what its sections hold. *)
Lemma render_counts (p : string) (c : Context) (nI nB nA nC : nat) :
  apart p ["def "; "("; ": "; ","; "):"] = true ->
  clean p c = true ->
  count_inside p pass_body = Some 0 ->
  counts p (parameters_block c) 0 ->
  counts p metadata_init nI ->
  counts p [Lit nl] 0 ->
  counts p (snapshot_before c) nB ->
  counts p (code_blocks c) 0 ->
  counts p (snapshot_after c) nA ->
  counts p metadata_complete nC ->
  count p (render c)
  = if idle c then 0
    else nI + (if autosnapshot c && negb (is_final c) then nB else 0)
         + (if autosnapshot c then nA else 0) + nC.
Proof.
  intros Hp Hc Hpass Hparams Hinit Hnl Hbefore Hcode Hafter Hcomplete.
  pose proof (clean_nonempty _ _ Hc) as Hne.
  rewrite render_layout.
  destruct (idle c) eqn:Hidle.
  - rewrite layout_idle by exact Hidle.
    rewrite flatten_app, signature_flat, (signature_counts _ _ Hp Hc).
    change (flatten (pass_statement ++ [Lit nl; Lit (nl ++ nl)]))
      with (pass_body ++ EmptyString)%string.
    rewrite (count_inside_sound _ _ _ Hpass).
    destruct p; [discriminate | reflexivity].
  - unfold Layout.layout. rewrite active_idle, Hidle. cbn [negb].
    rewrite flatten_app, signature_flat, (signature_counts _ _ Hp Hc).
    apply counts_all; [exact Hne|].
    replace (nI + (if autosnapshot c && negb (is_final c) then nB else 0)
             + (if autosnapshot c then nA else 0) + nC)
      with (0 + (nI + (0 + ((if autosnapshot c && negb (is_final c)
                              then nB else 0)
                            + (0 + ((if autosnapshot c then nA else 0)
                                    + nC))))))
      by lia.
    repeat (apply counts_app); try (apply counts_if); try assumption.
    destruct (0 <? len (parameters_names c))%nat;
      [assumption | apply counts_nil].
Qed.

Ltac unfold_sections :=
  unfold Layout.code_blocks, Layout.body_blocks, run_blocks, run_prologue,
    run_epilogue, blocks_elements, snapshot_after, snapshot_before,
    snapshot_arguments, link_input, loading_block, saving_block,
    parameters_block, metadata_init, metadata_complete.

(** *** The sections as text *)

Lemma metadata_init_flat : flatten metadata_init = init_section.
Proof. reflexivity. Qed.

Lemma metadata_complete_flat : flatten metadata_complete = complete_section.
Proof. reflexivity. Qed.

Lemma snapshot_before_flat (c : Context) :
  flatten (snapshot_before c) = snapshot_before_section c.
Proof.
  unfold snapshot_before, snapshot_arguments, snapshot_before_section,
    link_input_lines, import_podutils, snapshot_call, nl, dq.
  same_text.
Qed.

Lemma snapshot_after_flat (c : Context) :
  flatten (snapshot_after c) = snapshot_after_section c.
Proof.
  unfold snapshot_after, snapshot_arguments, snapshot_after_section,
    snapshot_and_submit, link_input, link_input_lines, import_podutils,
    snapshot_call, is_final, nl, dq.
  destruct (String.eqb (step_name c) "final_auto_snapshot"); same_text.
Qed.

Lemma flatten_if (b : bool) (ks : list chunk) :
  flatten (if b then ks else []) = if b then flatten ks else EmptyString.
Proof. destruct b; reflexivity. Qed.

(** The text of a step that has something to do, section by section. *)
Lemma render_active (c : Context) :
  active c = true ->
  render c
  = (signature_text c
     ++ (if (0 <? len (parameters_names c))%nat
         then parameters_block_text (parameters_names c) (parameters_types c)
         else EmptyString)
     ++ init_section ++ nl
     ++ (if autosnapshot c && negb (is_final c)
         then snapshot_before_section c else EmptyString)
     ++ flatten (code_blocks c)
     ++ (if autosnapshot c then snapshot_after_section c else EmptyString)
     ++ complete_section)%string.
Proof.
  intros Hact. rewrite render_layout. unfold Layout.layout. rewrite Hact.
  rewrite active_idle in Hact. apply negb_true_iff in Hact. rewrite Hact.
  rewrite !flatten_app, !flatten_if, signature_flat, parameters_block_flat,
    metadata_init_flat, metadata_complete_flat, snapshot_before_flat,
    snapshot_after_flat.
  reflexivity.
Qed.

(** *** Snapshots *)

(** C4.  With [autosnapshot] true the output is, in this order: the
    signature, the optional parameters block, the start of the metadata,
    the section that calls [snapshot_pipeline_step] on [pipeline_name],
    [step_name] and [nb_path] with [before=True] (there exactly when
    [step_name] is not [final_auto_snapshot]), the code blocks, the
    section that calls it with [before=False] and hands its result to
    [submit_output_rok_artifact], the end of the metadata.  When no
    value of the context holds the name [snapshot_pipeline_step], each
    of the two sections holds it once and the output holds it nowhere
    else; with [autosnapshot] false the output does not hold it. *)
Theorem snapshot_calls (c : Context) :
  (autosnapshot c = true ->
   render c
   = (signature_text c
      ++ (if (0 <? len (parameters_names c))%nat
          then parameters_block_text (parameters_names c) (parameters_types c)
          else EmptyString)
      ++ init_section ++ nl
      ++ (if String.eqb (step_name c) "final_auto_snapshot"
          then EmptyString else snapshot_before_section c)
      ++ flatten (code_blocks c)
      ++ snapshot_after_section c
      ++ complete_section)%string
   /\ (clean "snapshot_pipeline_step" c = true ->
       count "snapshot_pipeline_step" (snapshot_before_section c) = 1
       /\ count "snapshot_pipeline_step" (snapshot_after_section c) = 1
       /\ count "snapshot_pipeline_step" (render c)
          = if String.eqb (step_name c) "final_auto_snapshot" then 1 else 2))
  /\ (autosnapshot c = false ->
      clean "snapshot_pipeline_step" c = true ->
      occurs "snapshot_pipeline_step" (render c) = false).
Proof.
  assert (Hsections :
            clean "snapshot_pipeline_step" c = true ->
            counts "snapshot_pipeline_step" (snapshot_before c) 1
            /\ counts "snapshot_pipeline_step" (snapshot_after c) 1
            /\ count "snapshot_pipeline_step" (render c)
               = if idle c then 0
                 else 0 + (if autosnapshot c && negb (is_final c)
                           then 1 else 0)
                      + (if autosnapshot c then 1 else 0) + 0).
  { intros Hc.
    assert (Hb : counts "snapshot_pipeline_step" (snapshot_before c) 1
                 /\ counts "snapshot_pipeline_step" (snapshot_after c) 1).
    { apply clean_values in Hc.
      destruct Hc as (Hname & Hpipe & Hnb & Hmarshal & Hnames & Htypes
                      & Hin & Hout & Hbody).
      unfold_sections. split.
      - apply (counts_lit _ _ _ 1 0); [vm_compute; reflexivity | tally].
      - apply (counts_app _ _ _ 0 1); [tally|].
        apply (counts_lit _ _ _ 1 0); [vm_compute; reflexivity | tally]. }
    destruct Hb as [Hbefore Hafter].
    split; [exact Hbefore|]. split; [exact Hafter|].
    apply render_counts;
      [vm_compute; reflexivity | exact Hc | vm_compute; reflexivity
      | | | | exact Hbefore | | exact Hafter | ];
      apply clean_values in Hc;
      destruct Hc as (Hname & Hpipe & Hnb & Hmarshal & Hnames & Htypes
                      & Hin & Hout & Hbody);
      unfold_sections; unfold has_blocks; tally. }
  split.
  - intros Ha. split.
    + rewrite render_active by (unfold active; rewrite Ha; reflexivity).
      rewrite Ha. unfold is_final. cbn [andb].
      destruct (String.eqb (step_name c) "final_auto_snapshot"); reflexivity.
    + intros Hc. destruct (Hsections Hc) as (Hbefore & Hafter & Hall).
      rewrite <- snapshot_before_flat, <- snapshot_after_flat.
      rewrite (counts_all "snapshot_pipeline_step" _ _ eq_refl Hbefore),
        (counts_all "snapshot_pipeline_step" _ _ eq_refl Hafter), Hall.
      unfold idle, is_final. rewrite Ha. cbn [negb andb].
      destruct (String.eqb (step_name c) "final_auto_snapshot"); auto.
  - intros Ha Hc. destruct (Hsections Hc) as (_ & _ & Hall).
    apply count_zero. rewrite Hall, Ha. cbn [andb].
    destruct (idle c); reflexivity.
Qed.

(** *** Metadata calls *)

Lemma busy_not_idle (c : Context) : busy c <-> idle c = false.
Proof.
  rewrite <- active_iff, active_idle.
  destruct (idle c); cbn; split; congruence.
Qed.

(** C5.  The output calls [_kale_mlmdutils.init_metadata] exactly when
    it calls [_kale_mlmdutils.call("mark_execution_complete")], namely
    exactly when [autosnapshot] is true or one of [in_variables],
    [out_variables], [function_body] is not empty.  Then the section
    that calls [init_metadata] comes right after the signature and the
    optional parameters block, before everything else, and the call of
    [mark_execution_complete] ends the output.  When no value of the
    context holds the name of the call, the output holds it once in a
    step that has something to do, and not at all otherwise. *)
Theorem metadata_calls (c : Context) :
  (busy c ->
   exists mid,
     render c
     = (signature_text c
        ++ (if (0 <? len (parameters_names c))%nat
            then parameters_block_text (parameters_names c)
                   (parameters_types c)
            else EmptyString)
        ++ init_section ++ mid ++ complete_section)%string)
  /\ (clean "init_metadata" c = true ->
      (busy c -> count "init_metadata" (render c) = 1)
      /\ (~ busy c -> occurs "init_metadata" (render c) = false))
  /\ (clean "mark_execution_complete" c = true ->
      (busy c -> count "mark_execution_complete" (render c) = 1)
      /\ (~ busy c -> occurs "mark_execution_complete" (render c) = false)).
Proof.
  split; [|split].
  - intros Hbusy. apply active_iff in Hbusy.
    rewrite (render_active _ Hbusy).
    exists (nl
            ++ (if autosnapshot c && negb (is_final c)
                then snapshot_before_section c else EmptyString)
            ++ flatten (code_blocks c)
            ++ (if autosnapshot c then snapshot_after_section c
                else EmptyString))%string.
    rewrite !append_assoc. reflexivity.
  - intros Hc.
    assert (Hall : count "init_metadata" (render c)
                   = if idle c then 0
                     else 1 + (if autosnapshot c && negb (is_final c)
                               then 0 else 0)
                          + (if autosnapshot c then 0 else 0) + 0).
    { apply render_counts;
        [vm_compute; reflexivity | exact Hc | vm_compute; reflexivity |..];
        apply clean_values in Hc;
        destruct Hc as (Hname & Hpipe & Hnb & Hmarshal & Hnames & Htypes
                        & Hin & Hout & Hbody);
        unfold_sections; unfold has_blocks;
        first [tally | apply (counts_lit _ _ _ 1 0);
                       [vm_compute; reflexivity | tally]]. }
    split; intros Hb.
    + apply busy_not_idle in Hb. rewrite Hall, Hb.
      destruct (autosnapshot c && negb (is_final c)), (autosnapshot c);
        reflexivity.
    + apply count_zero. rewrite Hall.
      destruct (idle c) eqn:Hi; [reflexivity|].
      exfalso. apply Hb, busy_not_idle, Hi.
  - intros Hc.
    assert (Hall : count "mark_execution_complete" (render c)
                   = if idle c then 0
                     else 0 + (if autosnapshot c && negb (is_final c)
                               then 0 else 0)
                          + (if autosnapshot c then 0 else 0) + 1).
    { apply render_counts;
        [vm_compute; reflexivity | exact Hc | vm_compute; reflexivity |..];
        apply clean_values in Hc;
        destruct Hc as (Hname & Hpipe & Hnb & Hmarshal & Hnames & Htypes
                        & Hin & Hout & Hbody);
        unfold_sections; unfold has_blocks;
        first [tally | apply (counts_lit _ _ _ 1 0);
                       [vm_compute; reflexivity | tally]]. }
    split; intros Hb.
    + apply busy_not_idle in Hb. rewrite Hall, Hb.
      destruct (autosnapshot c && negb (is_final c)), (autosnapshot c);
        reflexivity.
    + apply count_zero. rewrite Hall.
      destruct (idle c) eqn:Hi; [reflexivity|].
      exfalso. apply Hb, busy_not_idle, Hi.
Qed.

(** *** Running the code blocks *)

Lemma has_blocks_iff (c : Context) : has_blocks c = true <-> has_code c.
Proof.
  unfold has_blocks, has_code.
  destruct (in_variables c), (out_variables c), (function_body c);
    cbn; intuition congruence.
Qed.

Lemma compact_app (a b : list chunk) :
  compact (a ++ b) = (compact a ++ compact b)%string.
Proof.
  induction a as [|[s|s] a IH]; simpl.
  - reflexivity.
  - rewrite IH, append_assoc. reflexivity.
  - rewrite IH, append_assoc. reflexivity.
Qed.

Lemma numbered_blocks_compact :
  forall (xs : list string) (k : nat),
    compact (iterate (fun i _ =>
                        [Lit "
                    _kale_block"; Val (of_nat i); Lit ","])
                     k xs)
    = cat (map (fun n => (n ++ ",")%string)
               (map (fun i => ("_kale_block" ++ of_nat i)%string)
                    (seq k (List.length xs)))).
Proof.
  induction xs as [|x xs IH]; intros k.
  - reflexivity.
  - cbn [iterate]. rewrite compact_app, IH.
    cbn [List.length seq map cat compact].
    replace (squeeze "
                    _kale_block")
      with "_kale_block" by (vm_compute; reflexivity).
    replace (squeeze ",") with "," by (vm_compute; reflexivity).
    rewrite ?append_assoc. cbn [append]. reflexivity.
Qed.

Lemma cat_app (a b : list string) : cat (a ++ b) = (cat a ++ cat b)%string.
Proof.
  induction a as [|x a IH]; simpl.
  - reflexivity.
  - rewrite IH, append_assoc. reflexivity.
Qed.

(** The elements written between the parentheses of [_kale_blocks]:
    the leading blocks in order, each followed by a comma, then the
    data-saving block when [out_variables] is not empty, with no comma
    after it. *)
Lemma blocks_elements_compact (c : Context) :
  compact (blocks_elements c)
  = (cat (map (fun n => (n ++ ",")%string) (leading_blocks c))
     ++ match out_variables c with
        | [] => EmptyString
        | _ => "_kale_data_saving_block"
        end)%string.
Proof.
  unfold blocks_elements, leading_blocks.
  rewrite !compact_app, numbered_blocks_compact, !map_app, !cat_app.
  generalize (cat (map (fun n => (n ++ ",")%string)
                       (map (fun i => ("_kale_block" ++ of_nat i)%string)
                            (seq 1 (List.length (function_body c)))))).
  intros mid.
  destruct (parameters_names c), (in_variables c), (out_variables c);
    vm_compute; reflexivity.
Qed.

(** When the step has code blocks, the output holds the code that runs
    them: [_kale_blocks] is bound to the parenthesised elements above,
    handed to [_kale_run_code], the HTML artifact is written to
    [/<step_name>.html] and [update_uimetadata] is called on
    [step_name].  Otherwise none of it is emitted. *)
Lemma run_blocks_emitted (c : Context) :
  (has_code c ->
   exists pre post,
     emit c = pre ++ run_prologue ++ blocks_elements c ++ run_epilogue c ++ post)
  /\ (~ has_code c ->
      emits "_kale_blocks" (emit c) = false
      /\ emits "_kale_run_code" (emit c) = false
      /\ emits "_kale_html_artifact" (emit c) = false
      /\ emits "_kale_update_uimetadata" (emit c) = false).
Proof.
  split.
  - intros Hcode. apply has_blocks_iff in Hcode. rewrite emit_layout.
    unfold Layout.layout, Layout.code_blocks, run_blocks. rewrite Hcode.
    exists (signature c
            ++ (if idle c then pass_statement
                else if (0 <? len (parameters_names c))%nat
                     then parameters_block c else [])
            ++ (if active c then metadata_init else [])
            ++ [Lit nl]
            ++ (if autosnapshot c && negb (is_final c)
                then snapshot_before c else [])
            ++ (if (0 <? len (in_variables c))%nat then loading_block c else [])
            ++ body_blocks c
            ++ (if (0 <? len (out_variables c))%nat then saving_block c else [])
            ++ [Lit (nl ++ nl)]),
           ((if autosnapshot c then snapshot_after c else [])
            ++ (if active c then metadata_complete else [])).
    rewrite <- !app_assoc. reflexivity.
  - intros Hno. rewrite emit_layout.
    assert (H : in_variables c = [] /\ out_variables c = []
                /\ function_body c = []).
    { unfold has_code in Hno.
      destruct (in_variables c), (out_variables c), (function_body c);
        repeat split; try reflexivity;
        exfalso; apply Hno; intuition congruence. }
    destruct H as (Hi & Ho & Hb).
    unfold_layout. unfold has_blocks. rewrite Hi, Ho, Hb.
    cbn [len List.length Nat.ltb Nat.leb orb iterate].
    repeat split; absent.
Qed.

Lemma occurs_here (p s : string) : occurs p (p ++ s) = true.
Proof.
  assert (H : forall q t, String.prefix q (q ++ t) = true).
  { induction q as [|a q IH]; intros t; simpl.
    - destruct t; reflexivity.
    - destruct (ascii_dec a a) as [_|Hne]; [apply IH | congruence]. }
  destruct p as [|a p]; simpl.
  - destruct s; reflexivity.
  - specialize (H (String a p) s). simpl in H. rewrite H. reflexivity.
Qed.

Lemma occurs_skip (a p s : string) :
  occurs p s = true -> occurs p (a ++ s) = true.
Proof.
  intros H. induction a as [|x a IH]; simpl.
  - exact H.
  - rewrite IH. apply orb_true_r.
Qed.

(** With a leading block the elements hold a comma, and Python reads
    them as a tuple. *)
Lemma blocks_read_as_tuple (c : Context) :
  parameters_names c <> [] \/ in_variables c <> [] \/ function_body c <> [] ->
  reads_as_tuple (compact (blocks_elements c)) = true.
Proof.
  intros H. unfold reads_as_tuple.
  assert (Hcomma : occurs "," (compact (blocks_elements c)) = true);
    [|rewrite Hcomma; apply orb_true_r].
  rewrite blocks_elements_compact. unfold leading_blocks.
  destruct (parameters_names c) as [|p ps];
    [destruct (in_variables c) as [|v vs];
       [destruct (function_body c) as [|b bs]|]|];
    [exfalso; destruct H as [H|[H|H]]; apply H; reflexivity| | |];
    cbn [Datatypes.app List.length seq map cat];
    rewrite !append_assoc; apply occurs_skip, (occurs_here ",").
Qed.

(** C3, at a step whose only code block is the data-saving block: the
    parentheses of [_kale_blocks] hold the single name
    [_kale_data_saving_block] and no comma, which Python does not read
    as a tuple, and this is what [_kale_run_code] is called on. *)
Theorem saving_only_blocks :
  compact (blocks_elements saving_only) = "_kale_data_saving_block"
  /\ reads_as_tuple (compact (blocks_elements saving_only)) = false
  /\ contains (render saving_only)
       ("_kale_blocks = (" ++ nl
        ++ "                    _kale_data_saving_block)" ++ nl
        ++ "    _kale_html_artifact = _kale_run_code(_kale_blocks)").
Proof.
  split; [reflexivity|]. split; [reflexivity|].
  exists (signature_text saving_only
          ++ flatten metadata_init ++ nl
          ++ data_saving_text "/marshal" ["x"] ++ nl ++ nl ++ nl
          ++ "    # run the code blocks inside a jupyter kernel" ++ nl
          ++ "    from kale.common.jputils import run_code as _kale_run_code"
          ++ nl ++ "    from kale.common.kfputils import \" ++ nl
          ++ "        update_uimetadata as _kale_update_uimetadata" ++ nl
          ++ "    ")%string.
  eexists. vm_compute. reflexivity.
Qed.

(** *** Determinism *)

(** The tags of the template over named variables are those of
    [Template.step_template] read on the context the variables make. *)
Lemma named_tokens (vars : Named.variables) (c : Context) :
  Named.bound vars = Some c ->
  emit_template (Named.named_template indent vars) c = emit c.
Proof.
  intros H. apply bound_lookups in H.
  destruct H as (E1 & E2 & E3 & E4 & E5 & E6 & E7 & E8 & E9 & E10).
  unfold Named.named_template, Named.entry_type, Template.emit, step_template.
  rewrite E1, E2, E3, E4, E5, E6, E7, E8, E9, E10.
  unfold emit_template.
  cbv -[step_name parameters_names parameters_types autosnapshot
        in_variables out_variables function_body pipeline_name nb_path
        marshal_path len Nat.ltb Nat.eqb negb andb orb String.eqb show
        nth_error Nat.sub equals join of_nat iterate Datatypes.app].
  reflexivity.
Qed.

(** On variables that make a context, the template over named
    variables renders what [Template.step_template] renders on that
    context. *)
Lemma named_rendering (vars : Named.variables) (c : Context) :
  Named.bound vars = Some c -> render_named vars = Some (render c).
Proof.
  intros H. unfold Named.render_named. rewrite H.
  unfold render_template. rewrite (named_tokens _ _ H). reflexivity.
Qed.

(** Variables that agree on the ten names make the same context. *)
Lemma bound_agree (vars1 vars2 : Named.variables) :
  (forall n, In n Named.names -> vars1 n = vars2 n) ->
  Named.bound vars1 = Named.bound vars2.
Proof.
  intros H. unfold Named.bound.
  rewrite (H "step_name"), (H "parameters_names"), (H "parameters_types"),
    (H "autosnapshot"), (H "in_variables"), (H "out_variables"),
    (H "function_body"), (H "pipeline_name"), (H "nb_path"),
    (H "marshal_path")
    by (cbn; auto 12).
  reflexivity.
Qed.

(** C6.  Rendering depends on the ten variables and on nothing else
    that is bound: two sets of variables that bind [step_name],
    [parameters_names], [parameters_types], [autosnapshot],
    [in_variables], [out_variables], [function_body], [pipeline_name],
    [nb_path] and [marshal_path] to the same values, whatever they bind
    any other name to, render to the same result; and when the ten
    values make a context, that result is the text the template renders
    on this context. *)
Theorem rendering_reads_ten_variables (vars1 vars2 : Named.variables) :
  (forall n, In n Named.names -> vars1 n = vars2 n) ->
  render_named vars1 = render_named vars2
  /\ (forall c, Named.bound vars1 = Some c ->
                render_named vars1 = Some (render c)
                /\ render_named vars2 = Some (render c)).
Proof.
  intros Hagree. pose proof (bound_agree _ _ Hagree) as Hbound.
  split.
  - destruct (Named.bound vars1) as [c|] eqn:E1.
    + rewrite (named_rendering _ _ E1).
      symmetry. apply named_rendering. rewrite <- Hbound. reflexivity.
    + unfold Named.render_named. rewrite <- Hbound, E1. reflexivity.
  - intros c Hc. split.
    + apply named_rendering, Hc.
    + apply named_rendering. rewrite <- Hbound. exact Hc.
Qed.

(** *** The order of the sections *)

(** In every context the output is made of these sections, each under
    its own condition, in this order: the signature; [pass] or the
    parameters block; the metadata initialisation; the snapshot before;
    the data-loading block; the cells of the step; the data-saving
    block; the run of the blocks; the snapshot after; the metadata
    completion.  The output is the text of these pieces, in a row. *)
Theorem sections_in_order (c : Context) :
  emit c
  = signature c
    ++ (if idle c then pass_statement
        else if (0 <? len (parameters_names c))%nat then parameters_block c
        else [])
    ++ (if active c then metadata_init else [])
    ++ [Lit nl]
    ++ (if autosnapshot c && negb (is_final c) then snapshot_before c else [])
    ++ (if (0 <? len (in_variables c))%nat then loading_block c else [])
    ++ body_blocks c
    ++ (if (0 <? len (out_variables c))%nat then saving_block c else [])
    ++ [Lit (nl ++ nl)]
    ++ (if has_blocks c
        then run_prologue ++ blocks_elements c ++ run_epilogue c else [])
    ++ (if autosnapshot c then snapshot_after c else [])
    ++ (if active c then metadata_complete else [])
  /\ render c = flatten (emit c).
Proof.
  split; [|apply render_emit].
  rewrite emit_layout.
  unfold Layout.layout, Layout.code_blocks, run_blocks.
  rewrite <- !app_assoc. reflexivity.
Qed.

(** *** The cells of the step *)

Lemma flatten_iterate_indexed (g : nat -> string -> list chunk) :
  forall xs k,
    flatten (iterate g (S k) xs)
    = cat (map (fun p => flatten (g (S (fst p)) (snd p)))
               (combine (seq k (List.length xs)) xs)).
Proof.
  induction xs as [|x xs IH]; intros k.
  - reflexivity.
  - cbn [iterate List.length seq combine map cat fst snd].
    rewrite flatten_app, IH. reflexivity.
Qed.

Lemma body_blocks_text (c : Context) :
  flatten (body_blocks c)
  = cat (map (cell_block_text indent) (indexed (function_body c))).
Proof.
  unfold Layout.body_blocks, indexed.
  rewrite flatten_iterate_indexed. reflexivity.
Qed.

(** In every context the output holds, for the cells of
    [function_body] in order, one block per cell: cell number [i],
    counted from one, is bound to [_kale_block<i>] as a triple-quoted
    string that holds the cell's text passed through [indent(4, True)];
    the blocks follow one another with nothing between them. *)
Theorem cells_become_numbered_blocks (c : Context) :
  contains (render c)
           (cat (map (cell_block_text indent) (indexed (function_body c)))).
Proof.
  rewrite render_layout. unfold Layout.layout, Layout.code_blocks.
  rewrite !flatten_app, body_blocks_text.
  do 5 apply contains_app_r.
  apply contains_app_l, contains_app_r, contains_app_l, contains_refl.
Qed.

(** *** The elements of [_kale_blocks] *)

(** When the step has code blocks and one of them comes before the
    data-saving block, the code that runs the blocks binds
    [_kale_blocks] to the names of the blocks in this order: the
    parameters block (when [parameters_names] is not empty), the
    data-loading block (when [in_variables] is not empty), one numbered
    block per cell, each followed by a comma, and last the data-saving
    block (when [out_variables] is not empty); Python reads these
    elements as a tuple.  The output is the text of the emitted pieces,
    in a row. *)
Theorem run_section_order (c : Context) :
  has_code c ->
  parameters_names c <> [] \/ in_variables c <> [] \/ function_body c <> [] ->
  (exists pre post,
     emit c = pre ++ run_prologue ++ blocks_elements c ++ run_epilogue c ++ post)
  /\ compact (blocks_elements c)
     = (cat (map (fun n => (n ++ ",")%string) (leading_blocks c))
        ++ cat (saving_blocks c))%string
  /\ reads_as_tuple (compact (blocks_elements c)) = true
  /\ render c = flatten (emit c).
Proof.
  intros Hcode Hlead. split; [|split; [|split]].
  - destruct (run_blocks_emitted c) as [Hrun _]. exact (Hrun Hcode).
  - rewrite blocks_elements_compact. unfold saving_blocks.
    destruct (out_variables c); reflexivity.
  - apply blocks_read_as_tuple, Hlead.
  - apply render_emit.
Qed.

(** *** Blocks are bound before they are run *)

Lemma contains_trans (s y x : string) :
  contains s y -> contains y x -> contains s x.
Proof.
  intros (a & b & ->) (a' & b' & ->).
  exists (a ++ a')%string, (b' ++ b)%string.
  rewrite !append_assoc. reflexivity.
Qed.

Lemma contains_prefix (x rest : string) : contains (x ++ rest) x.
Proof. apply contains_app_l, contains_refl. Qed.

Lemma contains_cat (f : nat * string -> string) (ps : list (nat * string)) :
  forall p, In p ps -> contains (cat (map f ps)) (f p).
Proof.
  induction ps as [|q ps IH]; intros p Hin; [contradiction|].
  destruct Hin as [->|Hin]; simpl.
  - apply contains_prefix.
  - apply contains_app_r, IH, Hin.
Qed.

Lemma numbered_cell (xs : list string) :
  forall k i,
    In i (seq (S k) (List.length xs)) ->
    exists x, In (Nat.pred i, x) (combine (seq k (List.length xs)) xs).
Proof.
  induction xs as [|x xs IH]; intros k i Hin; [contradiction|].
  cbn [List.length seq] in Hin. destruct Hin as [<-|Hin].
  - exists x. left. reflexivity.
  - destruct (IH (S k) i Hin) as (y & Hy). exists y. right. exact Hy.
Qed.

Lemma has_code_not_idle (c : Context) : has_code c -> idle c = false.
Proof.
  unfold has_code, idle.
  destruct (autosnapshot c), (in_variables c), (out_variables c),
    (function_body c); cbn; intuition congruence.
Qed.

Lemma in_optional (xs : list string) (name n : string) :
  In n (match xs with [] => [] | _ => [name] end) -> xs <> [] /\ n = name.
Proof.
  destruct xs as [|x xs]; [contradiction|].
  intros [<-|[]]. split; [discriminate | reflexivity].
Qed.

Lemma parameters_block_binding (names types : list string) :
  contains (parameters_block_text names types)
           (block_binding "_kale_pipeline_parameters_block").
Proof.
  exists EmptyString,
         (cat (map (assignment_at types) (indexed names))
          ++ nl ++ "    '''.format(" ++ join ", " names ++ ")" ++ nl)%string.
  unfold parameters_block_text, block_binding, nl.
  cbn [append]. reflexivity.
Qed.

Lemma data_loading_binding (dir : string) (vars : list string) :
  contains (data_loading_text dir vars)
           (block_binding "_kale_data_loading_block").
Proof.
  exists EmptyString,
         (nl ++ "    # -----------------------DATA LOADING START--------------------------------"
          ++ import_marshal_line ++ set_directory_line dir
          ++ cat (map load_line vars)
          ++ nl ++ "    # -----------------------DATA LOADING END----------------------------------"
          ++ nl ++ "    '''" ++ nl)%string.
  unfold data_loading_text, block_binding, nl.
  cbn [append]. reflexivity.
Qed.

Lemma data_saving_binding (dir : string) (vars : list string) :
  contains (data_saving_text dir vars)
           (block_binding "_kale_data_saving_block").
Proof.
  exists EmptyString,
         (nl ++ "    # -----------------------DATA SAVING START---------------------------------"
          ++ import_marshal_line ++ set_directory_line dir
          ++ cat (map save_line vars)
          ++ nl ++ "    # -----------------------DATA SAVING END-----------------------------------"
          ++ nl ++ "    '''")%string.
  unfold data_saving_text, block_binding, nl.
  cbn [append]. reflexivity.
Qed.

(** When the step has code blocks, every name that stands between the
    parentheses of [_kale_blocks] is bound to a triple-quoted string
    earlier in the output, and nothing before the run of the blocks
    mentions [_kale_blocks].  The output is the text of the emitted
    pieces, in a row. *)
Theorem blocks_bound_before_run (c : Context) :
  has_code c ->
  exists pre post,
    emit c = pre ++ run_prologue ++ blocks_elements c ++ run_epilogue c ++ post
    /\ (forall n, In n (leading_blocks c ++ saving_blocks c) ->
                  contains (flatten pre) (block_binding n))
    /\ emits "_kale_blocks" pre = false
    /\ render c = flatten (emit c).
Proof.
  intros Hcode. pose proof (has_code_not_idle c Hcode) as Hidle.
  apply has_blocks_iff in Hcode.
  exists (signature c
          ++ (if (0 <? len (parameters_names c))%nat
              then parameters_block c else [])
          ++ (if active c then metadata_init else [])
          ++ [Lit nl]
          ++ (if autosnapshot c && negb (is_final c)
              then snapshot_before c else [])
          ++ (if (0 <? len (in_variables c))%nat then loading_block c else [])
          ++ body_blocks c
          ++ (if (0 <? len (out_variables c))%nat then saving_block c else [])
          ++ [Lit (nl ++ nl)]),
         ((if autosnapshot c then snapshot_after c else [])
          ++ (if active c then metadata_complete else [])).
  split; [|split; [|split; [|apply render_emit]]].
  - rewrite emit_layout.
    unfold Layout.layout, Layout.code_blocks, run_blocks.
    rewrite Hcode, Hidle, <- !app_assoc. reflexivity.
  - intros n Hn. rewrite !flatten_app.
    unfold leading_blocks, saving_blocks in Hn.
    repeat (apply in_app_or in Hn; destruct Hn as [Hn|Hn]).
    + apply in_optional in Hn. destruct Hn as [Hne ->].
      rewrite (nonempty_len _ Hne), parameters_block_flat.
      apply contains_app_r, contains_app_l, parameters_block_binding.
    + apply in_optional in Hn. destruct Hn as [Hne ->].
      rewrite (nonempty_len _ Hne), loading_block_text.
      do 5 apply contains_app_r.
      apply contains_app_l, data_loading_binding.
    + apply in_map_iff in Hn. destruct Hn as (i & <- & Hi).
      do 6 apply contains_app_r. apply contains_app_l.
      rewrite body_blocks_text. unfold indexed.
      destruct (numbered_cell _ _ _ Hi) as (x & Hx).
      apply (contains_trans _ (cell_block_text indent (Nat.pred i, x))).
      * apply contains_cat, Hx.
      * assert (Hs : S (Nat.pred i) = i).
        { apply in_seq in Hi. lia. }
        unfold cell_block_text, block_binding. cbn [fst snd]. rewrite Hs.
        exists EmptyString,
               (nl ++ indent 4 true x ++ nl ++ "    '''" ++ nl)%string.
        unfold nl. same_text.
    + apply in_optional in Hn. destruct Hn as [Hne ->].
      rewrite (nonempty_len _ Hne), saving_block_text.
      do 7 apply contains_app_r.
      apply contains_app_l, data_saving_binding.
  - unfold signature, annotated_parameters, parameters_block, snapshot_before,
      loading_block, Layout.body_blocks, saving_block.
    absent.
Qed.

(** *** A step that only snapshots *)


(** *** The import of the pod utilities *)

Lemma link_input_once (p : string) (c : Context) :
  apart p ["def "; "("; ": "; ","; "):"] = true ->
  clean p c = true ->
  count_inside p pass_body = Some 0 ->
  counts p (parameters_block c) 0 ->
  counts p metadata_init 0 ->
  counts p [Lit nl] 0 ->
  counts p (snapshot_before c) 1 ->
  counts p (code_blocks c) 0 ->
  counts p (snapshot_after c) ((if is_final c then 1 else 0) + 0) ->
  counts p metadata_complete 0 ->
  count p (render c) = if autosnapshot c then 1 else 0.
Proof.
  intros Hp Hc Hpass H1 H2 H3 H4 H5 H6 H7. rewrite Nat.add_0_r in H6.
  rewrite (render_counts p c 0 1 (if is_final c then 1 else 0) 0)
    by assumption.
  unfold idle.
  destruct (autosnapshot c), (is_final c); cbn [negb andb];
    try reflexivity;
    destruct ((len (in_variables c) =? 0)%nat
              && (len (out_variables c) =? 0)%nat
              && (len (function_body c) =? 0)%nat); reflexivity.
Qed.

(** X6.  A step that snapshots imports the pod utilities and links its
    input artifacts once each, whatever its name: when no value of the
    context holds the text of the import line, the output holds it once
    with [autosnapshot] true and not at all otherwise, and so for the
    name [link_input_rok_artifacts]; and when no value of the context
    holds [_kale_podutils], nothing of the output before the import
    line does. *)
Theorem podutils_imported_once (c : Context) :
  (clean import_podutils c = true ->
   count import_podutils (render c) = if autosnapshot c then 1 else 0)
  /\ (clean "link_input_rok_artifacts" c = true ->
      count "link_input_rok_artifacts" (render c)
      = if autosnapshot c then 1 else 0)
  /\ (autosnapshot c = true ->
      clean "_kale_podutils" c = true ->
      exists pre post,
        render c = (pre ++ import_podutils ++ post)%string
        /\ occurs "_kale_podutils" pre = false).
Proof.
  split; [|split].
  - intros Hc.
    apply link_input_once;
      [vm_compute; reflexivity | exact Hc | vm_compute; reflexivity |..];
      apply clean_values in Hc;
      destruct Hc as (Hname & Hpipe & Hnb & Hmarshal & Hnames & Htypes
                      & Hin & Hout & Hbody);
      unfold_sections; unfold has_blocks;
      first [ tally
            | apply (counts_lit _ _ _ 1 0); [vm_compute; reflexivity | tally]
            | apply counts_app;
              [apply counts_if, (counts_lit _ _ _ 1 0);
               [vm_compute; reflexivity | tally]
              | tally] ].
  - intros Hc.
    apply link_input_once;
      [vm_compute; reflexivity | exact Hc | vm_compute; reflexivity |..];
      apply clean_values in Hc;
      destruct Hc as (Hname & Hpipe & Hnb & Hmarshal & Hnames & Htypes
                      & Hin & Hout & Hbody);
      unfold_sections; unfold has_blocks;
      first [ tally
            | apply (counts_lit _ _ _ 1 0); [vm_compute; reflexivity | tally]
            | apply counts_app;
              [apply counts_if, (counts_lit _ _ _ 1 0);
               [vm_compute; reflexivity | tally]
              | tally] ].
  - intros Ha Hc.
    pose proof (clean_nonempty _ _ Hc) as Hne.
    assert (Hact : active c = true) by (unfold active; rewrite Ha; reflexivity).
    assert (Hsig : apart "_kale_podutils" ["def "; "("; ": "; ","; "):"] = true)
      by (vm_compute; reflexivity).
    pose proof (signature_counts _ _ Hsig Hc) as Hsignature.
    pose proof Hc as Hv. apply clean_values in Hv.
    destruct Hv as (Hname & Hpipe & Hnb & Hmarshal & Hnames & Htypes
                    & Hin & Hout & Hbody).
    assert (Hhead : counts "_kale_podutils"
                      ((if (0 <? len (parameters_names c))%nat
                        then parameters_block c else [])
                       ++ metadata_init ++ [Lit nl]) 0)
      by (unfold_sections; tally).
    assert (Hcode : counts "_kale_podutils" (code_blocks c) 0)
      by (unfold_sections; unfold has_blocks; tally).
    rewrite render_layout. unfold Layout.layout.
    rewrite Hact, Ha.
    rewrite active_idle in Hact. apply negb_true_iff in Hact. rewrite Hact.
    cbn [andb].
    destruct (is_final c) eqn:Hfinal; cbn [negb].
    + exists (signature_text c
              ++ flatten ((if (0 <? len (parameters_names c))%nat
                           then parameters_block c else [])
                          ++ metadata_init ++ [Lit nl])
              ++ flatten (code_blocks c) ++ nl ++ "    ")%string.
      eexists. split.
      * unfold snapshot_after. rewrite Hfinal.
        rewrite !flatten_app, signature_flat. unfold link_input, nl, dq.
        cbn [flatten chunk_text Datatypes.app].
        rewrite !append_assoc. cbn [append import_podutils].
        repeat f_equal.
      * apply count_zero. rewrite Hsignature, Hhead, Hcode. reflexivity.
    + exists (signature_text c
              ++ flatten ((if (0 <? len (parameters_names c))%nat
                           then parameters_block c else [])
                          ++ metadata_init ++ [Lit nl])
              ++ nl ++ "    ")%string.
      eexists. split.
      * unfold snapshot_before.
        rewrite !flatten_app, signature_flat. unfold nl, dq.
        cbn [flatten chunk_text Datatypes.app].
        rewrite !append_assoc. cbn [append import_podutils].
        repeat f_equal.
      * apply count_zero. rewrite Hsignature, Hhead. reflexivity.
Qed.

(** *** Indentation *)

Lemma scan_app (a b : list chunk) :
  forall st,
    scan st (a ++ b)
    = match scan st a with
      | Some st' => scan st' b
      | None => None
      end.
Proof.
  induction a as [|[s|s] a IH]; intros st; simpl.
  - reflexivity.
  - destruct (scan_text st s); [apply IH | reflexivity].
  - apply IH.
Qed.

Lemma reads_well_app (a b : list chunk) :
  reads_well a -> reads_well b -> reads_well (a ++ b).
Proof.
  intros Ha Hb st. rewrite scan_app.
  destruct (Ha st) as (st1 & ->). apply Hb.
Qed.

Lemma reads_well_iterate (f : nat -> string -> list chunk) :
  (forall i x, reads_well (f i x)) ->
  forall xs i, reads_well (iterate f i xs).
Proof.
  intros Hf xs. induction xs as [|x xs IH]; intros i; simpl.
  - intros st. exists st. reflexivity.
  - apply reads_well_app; [apply Hf | apply IH].
Qed.

Lemma scan_iterate_inside (f : nat -> string -> list chunk) :
  (forall i x, scan false (f i x) = Some false) ->
  forall xs i, scan false (iterate f i xs) = Some false.
Proof.
  intros Hf xs. induction xs as [|x xs IH]; intros i; simpl.
  - reflexivity.
  - rewrite scan_app, Hf. apply IH.
Qed.

(** The elements of [_kale_blocks] are read from inside a line and end
    inside a line. *)
Lemma blocks_elements_inside (c : Context) :
  scan false (blocks_elements c) = Some false.
Proof.
  unfold blocks_elements.
  rewrite scan_app.
  replace (scan false (if (0 <? len (parameters_names c))%nat
                       then [Lit "_kale_pipeline_parameters_block,"] else []))
    with (Some false)
    by (destruct (0 <? len (parameters_names c))%nat; reflexivity).
  cbv beta iota. rewrite scan_app.
  replace (scan false (if (0 <? len (in_variables c))%nat
                       then [Lit "_kale_data_loading_block,"] else []))
    with (Some false)
    by (destruct (0 <? len (in_variables c))%nat; reflexivity).
  cbv beta iota.
  rewrite scan_app, scan_iterate_inside by (intros; reflexivity).
  cbv beta iota.
  destruct (0 <? len (out_variables c))%nat; reflexivity.
Qed.

Lemma run_blocks_read_well (c : Context) : reads_well (run_blocks c).
Proof.
  intros st. unfold run_blocks. rewrite scan_app.
  replace (scan st run_prologue) with (Some false)
    by (destruct st; reflexivity).
  cbv beta iota. rewrite scan_app, blocks_elements_inside.
  eexists. vm_compute. reflexivity.
Qed.

(** Pieces read well: by cases on the conditions, loop by loop. *)
Ltac well_read :=
  lazymatch goal with
  | |- reads_well (run_blocks _) => apply run_blocks_read_well
  | |- reads_well (_ ++ _) => apply reads_well_app; well_read
  | |- reads_well (if ?b then _ else _) => destruct b; well_read
  | |- reads_well (iterate _ _ _) =>
      apply reads_well_iterate; intros; well_read
  | |- _ => intros [|]; eexists; vm_compute; reflexivity
  end.

(** In every context, after the signature no line of template text
    starts in one of the first four columns: each line the template
    itself starts is empty or begins with four spaces, so that all its
    statements stand inside the body of the step function.  (What a
    printed value brings is the caller's.)  The output is the text of
    the emitted pieces, in a row. *)
Theorem body_is_indented (c : Context) :
  exists rest st,
    emit c = signature c ++ rest /\ scan false rest = Some st
    /\ render c = flatten (emit c).
Proof.
  assert (H : reads_well
    ((if idle c then pass_statement
      else if (0 <? len (parameters_names c))%nat then parameters_block c
      else [])
     ++ (if active c then metadata_init else [])
     ++ [Lit nl]
     ++ (if autosnapshot c && negb (is_final c) then snapshot_before c else [])
     ++ (if (0 <? len (in_variables c))%nat then loading_block c else [])
     ++ body_blocks c
     ++ (if (0 <? len (out_variables c))%nat then saving_block c else [])
     ++ [Lit (nl ++ nl)]
     ++ (if has_blocks c then run_blocks c else [])
     ++ (if autosnapshot c then snapshot_after c else [])
     ++ (if active c then metadata_complete else []))).
  { unfold parameters_block, snapshot_before, loading_block,
      Layout.body_blocks, saving_block, snapshot_after, snapshot_arguments.
    well_read. }
  destruct (H false) as (st & Hst).
  eexists _, st. split; [|split; [exact Hst | apply render_emit]].
  rewrite emit_layout. unfold Layout.layout, Layout.code_blocks.
  rewrite <- !app_assoc. reflexivity.
Qed.

End Rendering.

(** *** The theorems at concrete steps *)

Lemma data_blocks_emitted_kid2 :
  in_variables kid2_step <> [] /\ out_variables kid2_step <> []
  /\ contains (Template.render indent_lines kid2_step)
              (data_loading_text "/marshal" ["kid1"])
  /\ contains (Template.render indent_lines kid2_step)
              (data_saving_text "/marshal" ["kid2"]).
Proof.
  destruct (data_blocks_emitted indent_lines kid2_step) as [Hload Hsave].
  split; [discriminate|]. split; [discriminate|].
  split; [apply Hload | apply Hsave]; discriminate.
Defined.

Lemma first_line_is_signature_kid2 :
  List.length (parameters_names kid2_step)
  <= List.length (parameters_types kid2_step)
  /\ exists rest,
       Template.render indent_lines kid2_step
       = ("def kid2(CANDIES: int,OWNER: str):" ++ nl ++ rest)%string.
Proof.
  assert (Hle : List.length (parameters_names kid2_step)
                <= List.length (parameters_types kid2_step))
    by (simpl; lia).
  split; [exact Hle|].
  destruct (first_line_is_signature indent_lines kid2_step)
    as ((rest & Hrest) & Htyped & _).
  exists rest. rewrite Hrest, (Htyped Hle). reflexivity.
Defined.

Lemma idle_step_is_pass_noop :
  Template.render indent_lines idle_step
  = ("def noop(CANDIES: int):" ++ nl ++ "    pass" ++ nl ++ nl ++ nl)%string.
Proof.
  apply (idle_step_is_pass indent_lines idle_step); reflexivity.
Defined.

Lemma parameters_block_emitted_kid2 :
  parameters_names kid2_step <> [] /\ busy kid2_step
  /\ exists rest,
       Template.render indent_lines kid2_step
       = ("def kid2(CANDIES: int,OWNER: str):"
          ++ nl ++ "    _kale_pipeline_parameters_block = '''"
          ++ nl ++ "    CANDIES = {}"
          ++ nl ++ "    OWNER = " ++ dq ++ "{}" ++ dq
          ++ nl ++ "    '''.format(CANDIES, OWNER)" ++ nl
          ++ rest)%string.
Proof.
  assert (Hbusy : busy kid2_step) by (left; reflexivity).
  split; [discriminate|]. split; [exact Hbusy|].
  destruct (parameters_block_emitted indent_lines kid2_step) as [Hblock _].
  destruct (Hblock ltac:(discriminate) Hbusy) as [rest Hrest].
  exists rest. exact Hrest.
Defined.

Lemma metadata_calls_kid2 :
  busy kid2_step
  /\ Expected.clean indent_lines "init_metadata" kid2_step = true
  /\ Expected.clean indent_lines "mark_execution_complete" kid2_step = true
  /\ (exists mid,
        Template.render indent_lines kid2_step
        = (signature_text kid2_step
           ++ parameters_block_text ["CANDIES"; "OWNER"] ["int"; "str"]
           ++ init_section ++ mid ++ complete_section)%string)
  /\ count "init_metadata" (Template.render indent_lines kid2_step) = 1
  /\ count "mark_execution_complete"
       (Template.render indent_lines kid2_step) = 1.
Proof.
  assert (Hbusy : busy kid2_step) by (left; reflexivity).
  assert (Hinit : Expected.clean indent_lines "init_metadata" kid2_step = true)
    by reflexivity.
  assert (Hdone : Expected.clean indent_lines "mark_execution_complete"
                    kid2_step = true)
    by reflexivity.
  destruct (metadata_calls indent_lines kid2_step) as (Horder & Hi & Hd).
  split; [exact Hbusy|]. split; [exact Hinit|]. split; [exact Hdone|].
  split; [exact (Horder Hbusy)|].
  split; [exact (proj1 (Hi Hinit) Hbusy) | exact (proj1 (Hd Hdone) Hbusy)].
Defined.

Lemma snapshot_calls_kid2 :
  autosnapshot kid2_step = true
  /\ Expected.clean indent_lines "snapshot_pipeline_step" kid2_step = true
  /\ contains (Template.render indent_lines kid2_step)
       (snapshot_before_section kid2_step
        ++ flatten (Layout.code_blocks indent_lines kid2_step)
        ++ snapshot_after_section kid2_step)
  /\ count "snapshot_pipeline_step" (Template.render indent_lines kid2_step)
     = 2.
Proof.
  assert (Ha : autosnapshot kid2_step = true) by reflexivity.
  assert (Hc : Expected.clean indent_lines "snapshot_pipeline_step"
                 kid2_step = true)
    by reflexivity.
  destruct (snapshot_calls indent_lines kid2_step) as [Hon _].
  destruct (Hon Ha) as [Htext Hcount].
  destruct (Hcount Hc) as (_ & _ & Hall).
  split; [exact Ha|]. split; [exact Hc|]. split; [|exact Hall].
  rewrite Htext.
  exists (signature_text kid2_step
          ++ parameters_block_text ["CANDIES"; "OWNER"] ["int"; "str"]
          ++ init_section ++ nl)%string, complete_section.
  cbn [kid2_step parameters_names parameters_types len List.length Nat.ltb
       Nat.leb step_name String.eqb Ascii.eqb Bool.eqb].
  rewrite !append_assoc. reflexivity.
Defined.

Lemma rendering_reads_ten_variables_kid2 :
  (forall n, In n Named.names ->
     Named.variables_of kid2_step (fun _ => None) n
     = Named.variables_of kid2_step (fun _ => Some (Named.VStr "other")) n)
  /\ Named.render_named indent_lines
       (Named.variables_of kid2_step (fun _ => Some (Named.VStr "other")))
     = Some (Template.render indent_lines kid2_step).
Proof.
  assert (Hagree : forall n, In n Named.names ->
            Named.variables_of kid2_step (fun _ => None) n
            = Named.variables_of kid2_step
                (fun _ => Some (Named.VStr "other")) n).
  { intros n Hn. cbn in Hn.
    repeat (destruct Hn as [<-|Hn]; [reflexivity|]). contradiction. }
  split; [exact Hagree|].
  destruct (rendering_reads_ten_variables indent_lines _ _ Hagree)
    as [_ Hsame].
  exact (proj2 (Hsame kid2_step eq_refl)).
Defined.

Lemma podutils_imported_once_kid2 :
  Expected.clean indent_lines import_podutils kid2_step = true
  /\ count import_podutils (Template.render indent_lines kid2_step) = 1.
Proof.
  assert (Hc : Expected.clean indent_lines import_podutils kid2_step = true)
    by reflexivity.
  split; [exact Hc|].
  destruct (podutils_imported_once indent_lines kid2_step) as (Himport & _).
  exact (Himport Hc).
Defined.

Lemma run_section_order_kid2 :
  has_code kid2_step
  /\ compact (blocks_elements kid2_step)
     = "_kale_pipeline_parameters_block,_kale_data_loading_block,_kale_block1,_kale_data_saving_block"
  /\ reads_as_tuple (compact (blocks_elements kid2_step)) = true.
Proof.
  assert (Hcode : has_code kid2_step) by (left; discriminate).
  split; [exact Hcode|].
  destruct (run_section_order indent_lines kid2_step Hcode
              ltac:(left; discriminate)) as (_ & Hnames & Htuple & _).
  split; [exact Hnames | exact Htuple].
Defined.

Lemma blocks_bound_before_run_kid2 :
  has_code kid2_step
  /\ exists pre post,
       Template.emit indent_lines kid2_step
       = pre ++ run_prologue ++ blocks_elements kid2_step
         ++ run_epilogue kid2_step ++ post
       /\ contains (flatten pre) (block_binding "_kale_block1").
Proof.
  assert (Hcode : has_code kid2_step) by (left; discriminate).
  split; [exact Hcode|].
  destruct (blocks_bound_before_run indent_lines kid2_step Hcode)
    as (pre & post & Heq & Hbound & _).
  exists pre, post. split; [exact Heq|].
  apply Hbound. simpl. tauto.
Defined.


End TemplateProps.

(** ** Properties of the tutorial notebook *)

Module NotebookProps.

Import Notebook.

Lemma strip_prefix_sound (p : string) :
  forall t n, strip_prefix p t = Some n -> t = (p ++ n)%string.
Proof.
  induction p as [|a p IH]; intros t n H; simpl in *.
  - congruence.
  - destruct t as [|b t]; [discriminate|].
    destruct (Ascii.eqb a b) eqn:Hab; [|discriminate].
    apply Ascii.eqb_eq in Hab. subst b. f_equal. apply IH, H.
Qed.

Lemma strip_prefix_complete (p n : string) :
  strip_prefix p (p ++ n) = Some n.
Proof.
  induction p as [|a p IH]; simpl.
  - reflexivity.
  - rewrite Ascii.eqb_refl. exact IH.
Qed.

Lemma names_with_complete (p n : string) (c : cell) :
  In (p ++ n)%string (tags c) -> In n (names_with p c).
Proof.
  intros H. unfold names_with. apply in_flat_map.
  exists (p ++ n)%string. split; [exact H|].
  rewrite strip_prefix_complete. left. reflexivity.
Qed.

Lemma names_with_sound (p n : string) (c : cell) :
  In n (names_with p c) -> In (p ++ n)%string (tags c).
Proof.
  unfold names_with. intros H. apply in_flat_map in H.
  destruct H as (t & Ht & Hn).
  destruct (strip_prefix p t) as [m|] eqn:Hs; [|contradiction].
  destruct Hn as [->|[]]. apply strip_prefix_sound in Hs. subst t. exact Ht.
Qed.

Lemma is_code_kind (c : cell) : is_code c = true <-> kind c = Code.
Proof. unfold is_code. destruct (kind c); split; congruence. Qed.

(** A tag that [shape_of] recognises has one of the five shapes. *)
Lemma shape_of_sound (t : string) :
  shape_of t <> None ->
  t = "imports" \/ t = "pipeline-parameters" \/ t = "functions"
  \/ (exists n, t = ("block:" ++ n)%string)
  \/ (exists n, t = ("prev:" ++ n)%string).
Proof.
  unfold shape_of. intros H.
  destruct (String.eqb t "imports") eqn:E1;
    [apply String.eqb_eq in E1; auto|].
  destruct (String.eqb t "pipeline-parameters") eqn:E2;
    [apply String.eqb_eq in E2; auto|].
  destruct (String.eqb t "functions") eqn:E3;
    [apply String.eqb_eq in E3; auto|].
  destruct (strip_prefix "block:" t) as [n|] eqn:Hb.
  - apply strip_prefix_sound in Hb.
    right; right; right; left. exists n. exact Hb.
  - destruct (strip_prefix "prev:" t) as [n|] eqn:Hp.
    + apply strip_prefix_sound in Hp.
      right; right; right; right. exists n. exact Hp.
    + contradiction.
Qed.

(** C7.  Every tag of a code cell of the tutorial notebook is
    [imports], [pipeline-parameters] or [functions], or has the form
    [block:<name>] or [prev:<name>]; the tags of the code cells are the
    ten listed, which show each of the five shapes. *)
Theorem tags_have_known_shapes :
  (forall c t,
     In c tutorial_cells -> kind c = Code -> In t (tags c) ->
     t = "imports" \/ t = "pipeline-parameters" \/ t = "functions"
     \/ (exists n, t = ("block:" ++ n)%string)
     \/ (exists n, t = ("prev:" ++ n)%string))
  /\ map shape_of (code_tags tutorial_cells)
     = [Some Imports; Some PipelineParameters; Some Functions;
        Some (Block "sack");
        Some (Block "kid1"); Some (Prev "sack");
        Some (Block "kid2"); Some (Prev "kid1");
        Some (Block "kid3"); Some (Prev "kid2")].
Proof.
  split; [|reflexivity].
  intros c t Hc Hk Ht. apply shape_of_sound.
  assert (Hall : forallb (fun t => match shape_of t with
                                   | Some _ => true
                                   | None => false
                                   end) (code_tags tutorial_cells) = true)
    by reflexivity.
  rewrite forallb_forall in Hall.
  specialize (Hall t). destruct (shape_of t); [discriminate|].
  exfalso. assert (Hin : In t (code_tags tutorial_cells)).
  { unfold code_tags. apply in_flat_map. exists c. split; [exact Hc|].
    apply is_code_kind in Hk. rewrite Hk. exact Ht. }
  specialize (Hall Hin). discriminate.
Qed.

(** When [prevs_declared] accepts a list of cells, every [prev:] name of
    a code cell is among the names seen so far or is declared by a
    [block:] tag of a code cell before it. *)
Lemma prevs_declared_sound :
  forall cs seen,
    prevs_declared seen cs = true ->
    forall pre c post n,
      cs = pre ++ c :: post -> kind c = Code ->
      In ("prev:" ++ n)%string (tags c) ->
      In n seen
      \/ exists b, In b pre /\ kind b = Code /\ In ("block:" ++ n)%string (tags b).
Proof.
  induction cs as [|d cs IH]; intros seen Hok pre c post n Hcs Hk Hn.
  - destruct pre; discriminate.
  - destruct pre as [|b pre]; simpl in Hcs; injection Hcs as -> Hcs.
    + left. simpl in Hok. apply is_code_kind in Hk. rewrite Hk in Hok.
      apply andb_prop in Hok. destruct Hok as [Hall _].
      rewrite forallb_forall in Hall.
      specialize (Hall n (names_with_complete "prev:" n c Hn)).
      apply existsb_exists in Hall. destruct Hall as (m & Hm & Heq).
      apply String.eqb_eq in Heq. subst m. exact Hm.
    + simpl in Hok. destruct (is_code b) eqn:Hb.
      * apply andb_prop in Hok. destruct Hok as [_ Hok].
        destruct (IH _ Hok pre c post n Hcs Hk Hn) as [Hs|(e & He & Hek & Het)].
        -- apply in_app_or in Hs. destruct Hs as [Hs|Hs]; [left; exact Hs|].
           right. exists b. split; [left; reflexivity|].
           split; [apply is_code_kind, Hb|].
           apply (names_with_sound "block:"), Hs.
        -- right. exists e. split; [right; exact He|]. split; assumption.
      * destruct (IH _ Hok pre c post n Hcs Hk Hn) as [Hs|(e & He & Hek & Het)].
        -- left. exact Hs.
        -- right. exists e. split; [right; exact He|]. split; assumption.
Qed.

(** C10.  In the tutorial notebook every [prev:<name>] tag of a code
    cell names a block that a [block:<name>] tag declares on a code cell
    before it; the blocks are sack, kid1, kid2, kid3, and the
    dependencies kid1 on sack, kid2 on kid1, kid3 on kid2: a chain with
    no dangling and no forward reference. *)
Theorem prev_tags_name_earlier_blocks :
  (forall pre c post n,
     tutorial_cells = pre ++ c :: post -> kind c = Code ->
     In ("prev:" ++ n)%string (tags c) ->
     exists b, In b pre /\ kind b = Code /\ In ("block:" ++ n)%string (tags b))
  /\ declared_blocks tutorial_cells = ["sack"; "kid1"; "kid2"; "kid3"]
  /\ dependencies tutorial_cells
     = [("kid1", "sack"); ("kid2", "kid1"); ("kid3", "kid2")].
Proof.
  split; [|split; reflexivity].
  intros pre c post n Hcs Hk Hn.
  destruct (prevs_declared_sound tutorial_cells [] eq_refl pre c post n Hcs Hk Hn)
    as [[]|H].
  exact H.
Qed.

(** *** The theorems at concrete cells *)

Lemma tags_have_known_shapes_kid1 :
  In (code ["block:kid1"; "prev:sack"]) tutorial_cells
  /\ (exists n, "prev:sack" = ("prev:" ++ n)%string).
Proof.
  assert (Hin : In (code ["block:kid1"; "prev:sack"]) tutorial_cells)
    by (simpl; tauto).
  split; [exact Hin|].
  destruct tags_have_known_shapes as [Hshape _].
  destruct (Hshape (code ["block:kid1"; "prev:sack"]) "prev:sack" Hin eq_refl
                   ltac:(simpl; tauto))
    as [H|[H|[H|[[n H]|H]]]]; try discriminate.
  exact H.
Defined.

Lemma prev_tags_name_earlier_blocks_kid2 :
  tutorial_cells
  = firstn 12 tutorial_cells
    ++ code ["block:kid2"; "prev:kid1"] :: skipn 13 tutorial_cells
  /\ exists b,
       In b (firstn 12 tutorial_cells) /\ kind b = Code
       /\ In "block:kid1" (tags b).
Proof.
  split; [reflexivity|].
  destruct prev_tags_name_earlier_blocks as [Hprev _].
  apply (Hprev (firstn 12 tutorial_cells) (code ["block:kid2"; "prev:kid1"])
               (skipn 13 tutorial_cells) "kid1");
    [reflexivity | reflexivity | simpl; tauto].
Defined.

End NotebookProps.

(** ** Properties of the notebook's code *)

Module CandyProps.

Import Str Candy.

Local Open Scope Z_scope.

Section Interpreter.

Variable randint : nat -> Z -> Z -> Z.
Variable max_str_digits : nat.

(** [random.randint(a, b)] returns a value between [a] and [b]. *)
Hypothesis randint_range :
  forall k a b, a <= b -> a <= randint k a b <= b.

Abbreviation too_long := (Candy.too_long max_str_digits).
Abbreviation str := (Candy.str max_str_digits).
Abbreviation get_handful := (Candy.get_handful randint max_str_digits).
Abbreviation notebook := (Candy.notebook randint max_str_digits).

(** Between zero and a number that is not too long, no number is. *)
Lemma too_long_below (a b : Z) :
  0 <= a <= b -> too_long b = false -> too_long a = false.
Proof.
  unfold Candy.too_long. intros Hab.
  destruct (Nat.eqb max_str_digits 0); cbn [negb andb]; [reflexivity|].
  rewrite !Z.leb_gt. lia.
Qed.

Lemma str_short (n : Z) (w : world) :
  too_long n = false -> str n w = (Returned (decimal n), w).
Proof. intros H. unfold Candy.str. rewrite H. reflexivity. Qed.


Lemma get_handful_zero (kid : string) (w : world) :
  get_handful kid 0 w
  = (Returned 0,
     {| draws := draws w;
        printed := printed w ++ [(kid ++ " Got no candy!")%string] |}).
Proof. reflexivity. Qed.

Lemma get_handful_some (kid : string) (left : Z) (w : world) :
  0 < left ->
  too_long left = false ->
  get_handful kid left w
  = (Returned (randint (draws w) 1 left),
     {| draws := S (draws w);
        printed := printed w
                   ++ [(kid ++ " got " ++ decimal (randint (draws w) 1 left)
                        ++ " candies!")%string] |}).
Proof.
  intros Hpos Hfit. unfold Candy.get_handful.
  destruct (left =? 0) eqn:E; [apply Z.eqb_eq in E; lia|].
  pose proof (randint_range (draws w) 1 left ltac:(lia)) as Hr.
  unfold bind at 1. unfold random_randint.
  destruct (left <? 1) eqn:E1; [apply Z.ltb_lt in E1; lia|].
  unfold bind at 1.
  rewrite str_short by (apply (too_long_below _ left); [lia | exact Hfit]).
  reflexivity.
Qed.

Lemma get_handful_debt (kid : string) (left : Z) (w : world) :
  left < 0 -> get_handful kid left w = (Raised ValueError, w).
Proof.
  intros Hneg. unfold Candy.get_handful.
  destruct (left =? 0) eqn:E; [apply Z.eqb_eq in E; lia|].
  unfold bind, random_randint.
  destruct (left <? 1) eqn:E1; [reflexivity | apply Z.ltb_ge in E1; lia].
Qed.

(** One handful, by cases on what is left. *)
Lemma handful (kid : string) (left : Z) (w : world) :
  0 <= left ->
  too_long left = false ->
  exists c line,
    get_handful kid left w
    = (Returned c,
       {| draws := (draws w + (if (0 <? c)%Z then 1 else 0))%nat;
          printed := printed w ++ [line] |})
    /\ 0 <= c <= left /\ (0 < left -> 1 <= c).
Proof.
  intros Hle Hfit. destruct (Z.eq_dec left 0) as [->|Hne].
  - exists 0, (kid ++ " Got no candy!")%string.
    rewrite get_handful_zero. cbn [Z.ltb Z.compare].
    rewrite Nat.add_0_r. repeat split; lia.
  - pose proof (randint_range (draws w) 1 left ltac:(lia)) as Hr.
    exists (randint (draws w) 1 left). eexists.
    rewrite get_handful_some by (lia || exact Hfit).
    replace (0 <? randint (draws w) 1 left) with true
      by (symmetry; apply Z.ltb_lt; lia).
    rewrite Nat.add_1_r. repeat split; lia.
Qed.

(** A handful from a sack that is not in debt, and whose content the
    interpreter can turn into text, never fails: the kid gets between
    nothing and all that is left, nothing exactly when the sack is
    empty, and then [random.randint] is not called; one line is printed
    either way. *)
Theorem get_handful_in_range (kid : string) (left : Z) (w : world) :
  0 <= left ->
  too_long left = false ->
  exists c,
    get_handful kid left w
    = (Returned c,
       {| draws := if left =? 0 then draws w else S (draws w);
          printed :=
            printed w
            ++ [if left =? 0 then (kid ++ " Got no candy!")%string
                else (kid ++ " got " ++ decimal c ++ " candies!")%string] |})
    /\ 0 <= c <= left
    /\ (c = 0 <-> left = 0).
Proof.
  intros Hle Hfit. destruct (Z.eq_dec left 0) as [->|Hne].
  - exists 0. rewrite get_handful_zero. cbn [Z.eqb].
    repeat split; lia.
  - pose proof (randint_range (draws w) 1 left ltac:(lia)) as Hr.
    exists (randint (draws w) 1 left).
    rewrite get_handful_some by (lia || exact Hfit).
    replace (left =? 0) with false by (symmetry; apply Z.eqb_neq; exact Hne).
    repeat split; lia.
Qed.

(** With a negative amount left, [get_handful] raises the [ValueError]
    of [random.randint] on an empty range, and prints nothing. *)
Theorem get_handful_negative (kid : string) (left : Z) (w : world) :
  left < 0 ->
  get_handful kid left w = (Raised ValueError, w).
Proof.
  intros Hneg. unfold Candy.get_handful.
  destruct (left =? 0) eqn:E; [apply Z.eqb_eq in E; lia|].
  unfold bind, random_randint.
  destruct (left <? 1) eqn:E1; [reflexivity | apply Z.ltb_ge in E1; lia].
Qed.

(** Run on a number of candies that is not negative and that the
    interpreter can turn into text, the notebook never raises: each kid
    gets a number of candies that is not negative, the three together at
    most [CANDIES]; the first kid gets at least one when there is one; a
    kid who finds the sack empty gets nothing; [random.randint] is
    called once per kid who got something; five lines are printed, the
    last one telling what is left. *)
Theorem notebook_shares_candies (CANDIES : Z) (w : world) :
  0 <= CANDIES ->
  too_long CANDIES = false ->
  exists kid1 kid2 kid3 l1 l2 l3,
    notebook CANDIES w
    = (Returned (kid1, kid2, kid3),
       {| draws := (draws w
                    + List.length (filter (Z.ltb 0) [kid1; kid2; kid3]))%nat;
          printed := printed w
                     ++ [sack_line CANDIES; l1; l2; l3;
                         rest_line (CANDIES - kid1 - kid2 - kid3)] |})
    /\ 0 <= kid1 /\ 0 <= kid2 /\ 0 <= kid3
    /\ kid1 + kid2 + kid3 <= CANDIES
    /\ (0 < CANDIES -> 1 <= kid1)
    /\ (kid1 = CANDIES -> kid2 = 0)
    /\ (kid1 + kid2 = CANDIES -> kid3 = 0).
Proof.
  intros Hle Hfit.
  unfold Candy.notebook, cell_sack, cell_kid1, cell_kid2, cell_kid3.
  unfold bind at 1. unfold bind at 1. rewrite (str_short _ _ Hfit).
  unfold print at 1. cbv beta iota.
  set (w1 := {| draws := draws w;
                printed := printed w ++ [_] |}).
  destruct (handful "Jack" CANDIES w1 Hle Hfit) as (k1 & l1 & E1 & R1 & P1).
  unfold bind at 1. rewrite E1. cbv beta iota.
  set (w2 := {| draws := (draws w1 + _)%nat; printed := printed w1 ++ [l1] |}).
  assert (F2 : too_long (CANDIES - k1) = false)
    by (apply (too_long_below _ CANDIES); [lia | exact Hfit]).
  destruct (handful "Jill" (CANDIES - k1) w2 ltac:(lia) F2)
    as (k2 & l2 & E2 & R2 & P2).
  unfold bind at 1. rewrite E2. cbv beta iota.
  set (w3 := {| draws := (draws w2 + _)%nat; printed := printed w2 ++ [l2] |}).
  assert (F3 : too_long (CANDIES - k1 - k2) = false)
    by (apply (too_long_below _ CANDIES); [lia | exact Hfit]).
  destruct (handful "Paul" (CANDIES - k1 - k2) w3 ltac:(lia) F3)
    as (k3 & l3 & E3 & R3 & P3).
  unfold bind at 1. unfold bind at 1. rewrite E3. cbv beta iota.
  unfold bind at 1.
  rewrite str_short
    by (apply (too_long_below _ CANDIES); [lia | exact Hfit]).
  unfold bind, print, ret. cbv beta iota.
  exists k1, k2, k3, l1, l2, l3.
  split.
  - f_equal. subst w3 w2 w1. cbn [draws printed].
    f_equal.
    + cbn [filter List.length].
      destruct (0 <? k1), (0 <? k2), (0 <? k3); cbn [List.length]; lia.
    + rewrite <- !app_assoc. reflexivity.
  - repeat split; try lia.
Qed.

(** Run on a negative number of candies that the interpreter can turn
    into text, the notebook prints the sack line and then raises
    [ValueError] at the first handful. *)
Theorem notebook_negative (CANDIES : Z) (w : world) :
  CANDIES < 0 ->
  too_long CANDIES = false ->
  notebook CANDIES w
  = (Raised ValueError,
     {| draws := draws w; printed := printed w ++ [sack_line CANDIES] |}).
Proof.
  intros Hneg Hfit.
  unfold Candy.notebook, cell_sack, cell_kid1.
  unfold bind at 1. unfold bind at 1. rewrite (str_short _ _ Hfit).
  unfold print at 1. cbv beta iota.
  unfold bind at 1.
  rewrite get_handful_debt by exact Hneg. reflexivity.
Qed.


End Interpreter.

(** *** The theorems at concrete runs *)

Lemma take_all_range : forall (k : nat) a b, a <= b -> a <= take_all k a b <= b.
Proof. intros k a b H. unfold take_all. lia. Qed.

Lemma get_handful_in_range_default :
  0 <= CANDIES_default
  /\ Candy.too_long default_max_str_digits CANDIES_default = false
  /\ exists c,
       Candy.get_handful take_all default_max_str_digits
         "Jack" CANDIES_default fresh
       = (Returned c,
          {| draws := 1;
             printed := [("Jack got " ++ decimal c ++ " candies!")%string] |})
       /\ 0 <= c <= CANDIES_default.
Proof.
  assert (Hle : 0 <= CANDIES_default) by (unfold CANDIES_default; lia).
  assert (Hfit : Candy.too_long default_max_str_digits CANDIES_default = false)
    by (vm_compute; reflexivity).
  split; [exact Hle|]. split; [exact Hfit|].
  destruct (get_handful_in_range take_all default_max_str_digits
              take_all_range "Jack" CANDIES_default fresh Hle Hfit)
    as (c & E & R & _).
  exists c. split; [exact E | exact R].
Defined.

Lemma get_handful_negative_one :
  -1 < 0
  /\ Candy.get_handful take_all default_max_str_digits "Jack" (-1) fresh
     = (Raised ValueError, fresh).
Proof.
  split; [lia|].
  apply (get_handful_negative take_all default_max_str_digits
           "Jack" (-1) fresh). lia.
Defined.

Lemma notebook_shares_candies_default :
  0 <= CANDIES_default
  /\ Candy.too_long default_max_str_digits CANDIES_default = false
  /\ exists kid1 kid2 kid3 w,
       Candy.notebook take_all default_max_str_digits CANDIES_default fresh
       = (Returned (kid1, kid2, kid3), w)
       /\ kid1 + kid2 + kid3 <= CANDIES_default.
Proof.
  assert (Hle : 0 <= CANDIES_default) by (unfold CANDIES_default; lia).
  assert (Hfit : Candy.too_long default_max_str_digits CANDIES_default = false)
    by (vm_compute; reflexivity).
  split; [exact Hle|]. split; [exact Hfit|].
  destruct (notebook_shares_candies take_all default_max_str_digits
              take_all_range CANDIES_default fresh Hle Hfit)
    as (k1 & k2 & k3 & l1 & l2 & l3 & E & _ & _ & _ & Hsum & _).
  exists k1, k2, k3. eexists. split; [exact E | exact Hsum].
Defined.

Lemma notebook_negative_one :
  -1 < 0
  /\ Candy.too_long default_max_str_digits (-1) = false
  /\ Candy.notebook take_all default_max_str_digits (-1) fresh
     = (Raised ValueError,
        {| draws := 0;
           printed :=
             ["Let's put -1 candies in a bag and have three kids get a handful"%string] |}).
Proof.
  assert (Hfit : Candy.too_long default_max_str_digits (-1) = false)
    by (vm_compute; reflexivity).
  split; [lia|]. split; [exact Hfit|].
  apply (notebook_negative take_all default_max_str_digits (-1) fresh);
    [lia | exact Hfit].
Defined.


End CandyProps.
